(** * grab-redis: a shallow embedding of the dispatcher, the per-node limiter,
  the script helper and the reload coordinator, with the properties the
  specification states about them. *)

From stdpp Require Import base option list strings gmap sorting.
From Stdlib Require Import ZArith Lia.
From Stdlib Require PrimFloat FloatOps SpecFloat Uint63.

Local Open Scope string_scope.
Local Open Scope Z_scope.
Local Open Scope list_scope.

(** ** Go values, errors and contexts *)

Module Go.

(** [interface{}] as it occurs in command arguments and replies. *)
Inductive value :=
| VNil
| VString (s : string)
| VInt (n : Z).

(** Go error values.  [None : option error] is the nil error.
    - [Canceled], [DeadlineExceeded]: the two sentinels of package context;
    - [RedisError msg]: the lower layer's [proto.RedisError], the only type
      here that implements [goredis.Error];
    - [errorString msg]: [errors.New], [fmt.Errorf] without a wrapped
      error, network and pool errors;
    - [wrapError msg e]: an error whose [Unwrap] returns [e]. *)
Inductive error :=
| Canceled
| DeadlineExceeded
| RedisError (msg : string)
| errorString (msg : string)
| wrapError (msg : string) (e : error).

(** [err.Error()] *)
Definition Error (e : error) : string :=
  match e with
  | Canceled => "context canceled"
  | DeadlineExceeded => "context deadline exceeded"
  | RedisError msg => msg
  | errorString msg => msg
  | wrapError msg _ => msg
  end.

#[global] Instance error_eq_dec : EqDecision error.
Proof. solve_decision. Defined.

(** [errors.Is(err, target)]: [err == target] somewhere on the Unwrap chain. *)
Fixpoint errors_Is (err target : error) : bool :=
  if decide (err = target) then true
  else match err with
       | wrapError _ e => errors_Is e target
       | _ => false
       end.

(** [strings.HasPrefix(s, p)] *)
Definition HasPrefix (s p : string) : bool := String.prefix p s.

(** [context.Context], as far as the dispatcher observes it: a context that
    is not done, one that was cancelled, one whose deadline has passed. *)
Inductive Context :=
| Background
| CanceledCtx
| ExpiredCtx.

(** [ctx.Err()] *)
Definition ctx_Err (ctx : Context) : option error :=
  match ctx with
  | Background => None
  | CanceledCtx => Some Canceled
  | ExpiredCtx => Some DeadlineExceeded
  end.

(** [make([]interface{}, n)] *)
Definition make (n : nat) : list value := replicate n VNil.

(** [copy(dst, src)]: overwrites the first [min(len dst, len src)] slots. *)
Fixpoint copy (dst src : list value) : list value :=
  match dst, src with
  | _ :: dst', x :: src' => x :: copy dst' src'
  | _, _ => dst
  end.

(** [copy(dst[i:], src)] seen on the whole of [dst]. *)
Definition copy_from (i : nat) (dst src : list value) : list value :=
  take i dst ++ copy (drop i dst) src.

End Go.

(** ** redisapi: the script object *)

Module Redisapi.
Import Go.

Record Script := {
  keyCount : Z;
  src : string;
  hash : string;
}.

(** The method [args] of [Script]. *)
Definition args (s : Script) (spec : string) (keysAndArgs : list value)
  : list value :=
  if keyCount s <? 0 then
    let a := make (1 + length keysAndArgs) in
    let a := <[0%nat := VString spec]> a in
    copy_from 1 a keysAndArgs
  else
    let a := make (2 + length keysAndArgs) in
    let a := <[0%nat := VString spec]> a in
    let a := <[1%nat := VInt (keyCount s)]> a in
    copy_from 2 a keysAndArgs.

Definition GetHashAndArgs (s : Script) (keysAndArgs : list value) :=
  args s (hash s) keysAndArgs.

Definition GetScriptAndArgs (s : Script) (keysAndArgs : list value) :=
  args s (src s) keysAndArgs.

(** [ReplyPair] *)
Record ReplyPair := { Value : value; Err : option error }.

(** [Args]: [NewArgs(args...)] and [Add(values...)] *)
Definition NewArgs (args : list value) : list value := args.

Definition Add (args values : list value) : list value := args ++ values.

End Redisapi.

(** ** The breaker wrapper *)

Module CircuitBreaker.
Import Go.

(** [IsNonThreatErr] *)
Definition IsNonThreatErr := option error -> bool * option error.

Record cbOption := {
  userErrHandler : option IsNonThreatErr;
}.

Definition Option := cbOption -> cbOption.

(** [WithUserErrorHandler] *)
Definition WithUserErrorHandler (handler : IsNonThreatErr) : Option :=
  fun _ =>
    {| userErrHandler := Some (fun err =>
         match err with
         | None => (false, None)
         | Some _ => handler err
         end) |}.

(** [getDefaultUserErrorHandler] *)
Definition getDefaultUserErrorHandler : IsNonThreatErr :=
  fun err => (false, err).

(** [makeOption] *)
Definition makeOption (opts : list Option) : IsNonThreatErr :=
  let options := foldl (fun o opt => opt o) {| userErrHandler := None |} opts in
  match userErrHandler options with
  | None => getDefaultUserErrorHandler
  | Some h => h
  end.

(** [handleError] inside [Go]: the first component is what [run] returns to
    the breaker (a non-nil value is a tracked failure), the second what is
    sent on the soft-error channel. *)
Definition handleError (h : IsNonThreatErr) (routineError : option error)
  : option error * option (option error) :=
  match routineError with
  | Some _ =>
      let '(isErrorSafe, err) := h routineError in
      if negb isErrorSafe then (err, None)
      else (None, Some routineError)
  | None => (None, Some routineError)
  end.

(** The breaker's rolling counters, as the wrapped routine feeds them: a
    [run] that returns a non-nil error is recorded as a failure, a nil one
    as a success. *)
Record metrics := { requests : nat; tracked_errors : nat }.

Definition report (m : metrics) (out : option error) : metrics :=
  {| requests := S (requests m);
     tracked_errors := match out with
                       | Some _ => S (tracked_errors m)
                       | None => tracked_errors m
                       end |}.

(** One protected call whose routine returned [routineError]. *)
Definition observe (opts : list Option) (m : metrics)
  (routineError : option error) : metrics :=
  report m (fst (handleError (makeOption opts) routineError)).

Definition observe_all (opts : list Option) (m : metrics)
  (errs : list (option error)) : metrics :=
  foldl (observe opts) m errs.

End CircuitBreaker.

(** ** Configuration *)

Module Config.
Import Go.

Definition ModeCluster : string := "cluster".
Definition ModeMasterSlaveGroup : string := "masterSlaveGroup".
Definition ModeSingleHost : string := "singleHost".

Definition ModeReadFromMaster : string := "readFromMaster".
Definition ModeReadFromSlaves : string := "readFromSlaves".
Definition ModeReadRandomly : string := "readRandomly".
Definition ModeReadByLatency : string := "readByLatency".

Definition ucmEmptyString : string := "<nil>".
Definition defaultHostAndPort : string := "localhost:6379".
Definition defaultReadMode : string := ModeReadFromSlaves.
Definition defaultDialTimeoutInMs : Z := 5000.
Definition defaultCBTimeoutInMS : Z := 31000.
Definition defaultCBMaxConcurrent : Z := 5000.
Definition defaultCBErrPercent : Z := 50.
Definition defaultMaxChanSize : Z := 10000.
Definition defaultMaxWorker : Z := 10.
Definition defaultWorkerIdleTimeout : Z := 1000.

(** [m.In(modes...)] *)
Definition In (m : string) (modes : list string) : bool :=
  existsb (String.eqb m) modes.

Definition ClientMode_IsValid (m : string) : bool :=
  In m [ModeCluster; ModeMasterSlaveGroup; ModeSingleHost].

Definition ReadMode_IsValid (m : string) : bool :=
  In m [ModeReadFromMaster; ModeReadFromSlaves; ModeReadRandomly;
        ModeReadByLatency].

(** [parseDurationInMs]: milliseconds to a [time.Duration] in nanoseconds. *)
Definition parseDurationInMs (durationInMs : Z) : Z := durationInMs * 1000000.

Record Hystrix := {
  TimeoutInMs : Z;
  MaxConcurrentRequests : Z;
  RequestVolumeThreshold : Z;
  ErrorPercentThreshold : Z;
  SleepWindowInMs : Z;
  QueueSizeRejectionThreshold : Z;
}.

Definition set_TimeoutInMs (v : Z) (h : Hystrix) : Hystrix :=
  Build_Hystrix v (MaxConcurrentRequests h) (RequestVolumeThreshold h)
    (ErrorPercentThreshold h) (SleepWindowInMs h)
    (QueueSizeRejectionThreshold h).

Definition set_MaxConcurrentRequests (v : Z) (h : Hystrix) : Hystrix :=
  Build_Hystrix (TimeoutInMs h) v (RequestVolumeThreshold h)
    (ErrorPercentThreshold h) (SleepWindowInMs h)
    (QueueSizeRejectionThreshold h).

Definition set_ErrorPercentThreshold (v : Z) (h : Hystrix) : Hystrix :=
  Build_Hystrix (TimeoutInMs h) (MaxConcurrentRequests h)
    (RequestVolumeThreshold h) v (SleepWindowInMs h)
    (QueueSizeRejectionThreshold h).

Record ClientConfig := {
  ClientMode : string;
  Addrs : list string;
  Username : string;
  Password : string;
  DB : Z;
  MaxRetries : Z;
  MinRetryBackoffInMs : Z;
  MaxRetryBackoffInMs : Z;
  DialTimeoutInMs : Z;
  ReadTimeoutInMs : Z;
  WriteTimeoutInMs : Z;
  PoolSize : Z;
  MinIdleConns : Z;
  MaxIdleConns : Z;
  MaxConnAgeInMs : Z;
  PoolTimeoutInMs : Z;
  IdleTimeoutInMs : Z;
  IdleCheckFrequencyInMs : Z;
  TLSEnabled : bool;
  HystrixEnabled : bool;
  hystrix : Hystrix;
  MaxRedirects : Z;
  ReadMode : string;
  IgnoreReadOnly : bool;
}.

(** Field assignments [c.F = v]. *)
Definition set_Addrs (v : list string) (c : ClientConfig) : ClientConfig :=
  Build_ClientConfig (ClientMode c) v (Username c) (Password c) (DB c)
    (MaxRetries c) (MinRetryBackoffInMs c) (MaxRetryBackoffInMs c)
    (DialTimeoutInMs c) (ReadTimeoutInMs c) (WriteTimeoutInMs c) (PoolSize
    c) (MinIdleConns c) (MaxIdleConns c) (MaxConnAgeInMs c) (PoolTimeoutInMs
    c) (IdleTimeoutInMs c) (IdleCheckFrequencyInMs c) (TLSEnabled c)
    (HystrixEnabled c) (hystrix c) (MaxRedirects c) (ReadMode c)
    (IgnoreReadOnly c).

Definition set_Username (v : string) (c : ClientConfig) : ClientConfig :=
  Build_ClientConfig (ClientMode c) (Addrs c) v (Password c) (DB c)
    (MaxRetries c) (MinRetryBackoffInMs c) (MaxRetryBackoffInMs c)
    (DialTimeoutInMs c) (ReadTimeoutInMs c) (WriteTimeoutInMs c) (PoolSize
    c) (MinIdleConns c) (MaxIdleConns c) (MaxConnAgeInMs c) (PoolTimeoutInMs
    c) (IdleTimeoutInMs c) (IdleCheckFrequencyInMs c) (TLSEnabled c)
    (HystrixEnabled c) (hystrix c) (MaxRedirects c) (ReadMode c)
    (IgnoreReadOnly c).

Definition set_Password (v : string) (c : ClientConfig) : ClientConfig :=
  Build_ClientConfig (ClientMode c) (Addrs c) (Username c) v (DB c)
    (MaxRetries c) (MinRetryBackoffInMs c) (MaxRetryBackoffInMs c)
    (DialTimeoutInMs c) (ReadTimeoutInMs c) (WriteTimeoutInMs c) (PoolSize
    c) (MinIdleConns c) (MaxIdleConns c) (MaxConnAgeInMs c) (PoolTimeoutInMs
    c) (IdleTimeoutInMs c) (IdleCheckFrequencyInMs c) (TLSEnabled c)
    (HystrixEnabled c) (hystrix c) (MaxRedirects c) (ReadMode c)
    (IgnoreReadOnly c).

Definition set_MaxRetries (v : Z) (c : ClientConfig) : ClientConfig :=
  Build_ClientConfig (ClientMode c) (Addrs c) (Username c) (Password c) (DB
    c) v (MinRetryBackoffInMs c) (MaxRetryBackoffInMs c) (DialTimeoutInMs c)
    (ReadTimeoutInMs c) (WriteTimeoutInMs c) (PoolSize c) (MinIdleConns c)
    (MaxIdleConns c) (MaxConnAgeInMs c) (PoolTimeoutInMs c) (IdleTimeoutInMs
    c) (IdleCheckFrequencyInMs c) (TLSEnabled c) (HystrixEnabled c) (hystrix
    c) (MaxRedirects c) (ReadMode c) (IgnoreReadOnly c).

Definition set_MinRetryBackoffInMs (v : Z) (c : ClientConfig) : ClientConfig :=
  Build_ClientConfig (ClientMode c) (Addrs c) (Username c) (Password c) (DB
    c) (MaxRetries c) v (MaxRetryBackoffInMs c) (DialTimeoutInMs c)
    (ReadTimeoutInMs c) (WriteTimeoutInMs c) (PoolSize c) (MinIdleConns c)
    (MaxIdleConns c) (MaxConnAgeInMs c) (PoolTimeoutInMs c) (IdleTimeoutInMs
    c) (IdleCheckFrequencyInMs c) (TLSEnabled c) (HystrixEnabled c) (hystrix
    c) (MaxRedirects c) (ReadMode c) (IgnoreReadOnly c).

Definition set_MaxRetryBackoffInMs (v : Z) (c : ClientConfig) : ClientConfig :=
  Build_ClientConfig (ClientMode c) (Addrs c) (Username c) (Password c) (DB
    c) (MaxRetries c) (MinRetryBackoffInMs c) v (DialTimeoutInMs c)
    (ReadTimeoutInMs c) (WriteTimeoutInMs c) (PoolSize c) (MinIdleConns c)
    (MaxIdleConns c) (MaxConnAgeInMs c) (PoolTimeoutInMs c) (IdleTimeoutInMs
    c) (IdleCheckFrequencyInMs c) (TLSEnabled c) (HystrixEnabled c) (hystrix
    c) (MaxRedirects c) (ReadMode c) (IgnoreReadOnly c).

Definition set_DialTimeoutInMs (v : Z) (c : ClientConfig) : ClientConfig :=
  Build_ClientConfig (ClientMode c) (Addrs c) (Username c) (Password c) (DB
    c) (MaxRetries c) (MinRetryBackoffInMs c) (MaxRetryBackoffInMs c) v
    (ReadTimeoutInMs c) (WriteTimeoutInMs c) (PoolSize c) (MinIdleConns c)
    (MaxIdleConns c) (MaxConnAgeInMs c) (PoolTimeoutInMs c) (IdleTimeoutInMs
    c) (IdleCheckFrequencyInMs c) (TLSEnabled c) (HystrixEnabled c) (hystrix
    c) (MaxRedirects c) (ReadMode c) (IgnoreReadOnly c).

Definition set_ReadTimeoutInMs (v : Z) (c : ClientConfig) : ClientConfig :=
  Build_ClientConfig (ClientMode c) (Addrs c) (Username c) (Password c) (DB
    c) (MaxRetries c) (MinRetryBackoffInMs c) (MaxRetryBackoffInMs c)
    (DialTimeoutInMs c) v (WriteTimeoutInMs c) (PoolSize c) (MinIdleConns c)
    (MaxIdleConns c) (MaxConnAgeInMs c) (PoolTimeoutInMs c) (IdleTimeoutInMs
    c) (IdleCheckFrequencyInMs c) (TLSEnabled c) (HystrixEnabled c) (hystrix
    c) (MaxRedirects c) (ReadMode c) (IgnoreReadOnly c).

Definition set_WriteTimeoutInMs (v : Z) (c : ClientConfig) : ClientConfig :=
  Build_ClientConfig (ClientMode c) (Addrs c) (Username c) (Password c) (DB
    c) (MaxRetries c) (MinRetryBackoffInMs c) (MaxRetryBackoffInMs c)
    (DialTimeoutInMs c) (ReadTimeoutInMs c) v (PoolSize c) (MinIdleConns c)
    (MaxIdleConns c) (MaxConnAgeInMs c) (PoolTimeoutInMs c) (IdleTimeoutInMs
    c) (IdleCheckFrequencyInMs c) (TLSEnabled c) (HystrixEnabled c) (hystrix
    c) (MaxRedirects c) (ReadMode c) (IgnoreReadOnly c).

Definition set_PoolSize (v : Z) (c : ClientConfig) : ClientConfig :=
  Build_ClientConfig (ClientMode c) (Addrs c) (Username c) (Password c) (DB
    c) (MaxRetries c) (MinRetryBackoffInMs c) (MaxRetryBackoffInMs c)
    (DialTimeoutInMs c) (ReadTimeoutInMs c) (WriteTimeoutInMs c) v
    (MinIdleConns c) (MaxIdleConns c) (MaxConnAgeInMs c) (PoolTimeoutInMs c)
    (IdleTimeoutInMs c) (IdleCheckFrequencyInMs c) (TLSEnabled c)
    (HystrixEnabled c) (hystrix c) (MaxRedirects c) (ReadMode c)
    (IgnoreReadOnly c).

Definition set_MinIdleConns (v : Z) (c : ClientConfig) : ClientConfig :=
  Build_ClientConfig (ClientMode c) (Addrs c) (Username c) (Password c) (DB
    c) (MaxRetries c) (MinRetryBackoffInMs c) (MaxRetryBackoffInMs c)
    (DialTimeoutInMs c) (ReadTimeoutInMs c) (WriteTimeoutInMs c) (PoolSize
    c) v (MaxIdleConns c) (MaxConnAgeInMs c) (PoolTimeoutInMs c)
    (IdleTimeoutInMs c) (IdleCheckFrequencyInMs c) (TLSEnabled c)
    (HystrixEnabled c) (hystrix c) (MaxRedirects c) (ReadMode c)
    (IgnoreReadOnly c).

Definition set_MaxIdleConns (v : Z) (c : ClientConfig) : ClientConfig :=
  Build_ClientConfig (ClientMode c) (Addrs c) (Username c) (Password c) (DB
    c) (MaxRetries c) (MinRetryBackoffInMs c) (MaxRetryBackoffInMs c)
    (DialTimeoutInMs c) (ReadTimeoutInMs c) (WriteTimeoutInMs c) (PoolSize
    c) (MinIdleConns c) v (MaxConnAgeInMs c) (PoolTimeoutInMs c)
    (IdleTimeoutInMs c) (IdleCheckFrequencyInMs c) (TLSEnabled c)
    (HystrixEnabled c) (hystrix c) (MaxRedirects c) (ReadMode c)
    (IgnoreReadOnly c).

Definition set_MaxConnAgeInMs (v : Z) (c : ClientConfig) : ClientConfig :=
  Build_ClientConfig (ClientMode c) (Addrs c) (Username c) (Password c) (DB
    c) (MaxRetries c) (MinRetryBackoffInMs c) (MaxRetryBackoffInMs c)
    (DialTimeoutInMs c) (ReadTimeoutInMs c) (WriteTimeoutInMs c) (PoolSize
    c) (MinIdleConns c) (MaxIdleConns c) v (PoolTimeoutInMs c)
    (IdleTimeoutInMs c) (IdleCheckFrequencyInMs c) (TLSEnabled c)
    (HystrixEnabled c) (hystrix c) (MaxRedirects c) (ReadMode c)
    (IgnoreReadOnly c).

Definition set_PoolTimeoutInMs (v : Z) (c : ClientConfig) : ClientConfig :=
  Build_ClientConfig (ClientMode c) (Addrs c) (Username c) (Password c) (DB
    c) (MaxRetries c) (MinRetryBackoffInMs c) (MaxRetryBackoffInMs c)
    (DialTimeoutInMs c) (ReadTimeoutInMs c) (WriteTimeoutInMs c) (PoolSize
    c) (MinIdleConns c) (MaxIdleConns c) (MaxConnAgeInMs c) v
    (IdleTimeoutInMs c) (IdleCheckFrequencyInMs c) (TLSEnabled c)
    (HystrixEnabled c) (hystrix c) (MaxRedirects c) (ReadMode c)
    (IgnoreReadOnly c).

Definition set_IdleTimeoutInMs (v : Z) (c : ClientConfig) : ClientConfig :=
  Build_ClientConfig (ClientMode c) (Addrs c) (Username c) (Password c) (DB
    c) (MaxRetries c) (MinRetryBackoffInMs c) (MaxRetryBackoffInMs c)
    (DialTimeoutInMs c) (ReadTimeoutInMs c) (WriteTimeoutInMs c) (PoolSize
    c) (MinIdleConns c) (MaxIdleConns c) (MaxConnAgeInMs c) (PoolTimeoutInMs
    c) v (IdleCheckFrequencyInMs c) (TLSEnabled c) (HystrixEnabled c)
    (hystrix c) (MaxRedirects c) (ReadMode c) (IgnoreReadOnly c).

Definition set_IdleCheckFrequencyInMs (v : Z) (c : ClientConfig) : ClientConfig :=
  Build_ClientConfig (ClientMode c) (Addrs c) (Username c) (Password c) (DB
    c) (MaxRetries c) (MinRetryBackoffInMs c) (MaxRetryBackoffInMs c)
    (DialTimeoutInMs c) (ReadTimeoutInMs c) (WriteTimeoutInMs c) (PoolSize
    c) (MinIdleConns c) (MaxIdleConns c) (MaxConnAgeInMs c) (PoolTimeoutInMs
    c) (IdleTimeoutInMs c) v (TLSEnabled c) (HystrixEnabled c) (hystrix c)
    (MaxRedirects c) (ReadMode c) (IgnoreReadOnly c).

Definition set_HystrixEnabled (v : bool) (c : ClientConfig) : ClientConfig :=
  Build_ClientConfig (ClientMode c) (Addrs c) (Username c) (Password c) (DB
    c) (MaxRetries c) (MinRetryBackoffInMs c) (MaxRetryBackoffInMs c)
    (DialTimeoutInMs c) (ReadTimeoutInMs c) (WriteTimeoutInMs c) (PoolSize
    c) (MinIdleConns c) (MaxIdleConns c) (MaxConnAgeInMs c) (PoolTimeoutInMs
    c) (IdleTimeoutInMs c) (IdleCheckFrequencyInMs c) (TLSEnabled c) v
    (hystrix c) (MaxRedirects c) (ReadMode c) (IgnoreReadOnly c).

Definition set_hystrix (v : Hystrix) (c : ClientConfig) : ClientConfig :=
  Build_ClientConfig (ClientMode c) (Addrs c) (Username c) (Password c) (DB
    c) (MaxRetries c) (MinRetryBackoffInMs c) (MaxRetryBackoffInMs c)
    (DialTimeoutInMs c) (ReadTimeoutInMs c) (WriteTimeoutInMs c) (PoolSize
    c) (MinIdleConns c) (MaxIdleConns c) (MaxConnAgeInMs c) (PoolTimeoutInMs
    c) (IdleTimeoutInMs c) (IdleCheckFrequencyInMs c) (TLSEnabled c)
    (HystrixEnabled c) v (MaxRedirects c) (ReadMode c) (IgnoreReadOnly c).

Definition set_MaxRedirects (v : Z) (c : ClientConfig) : ClientConfig :=
  Build_ClientConfig (ClientMode c) (Addrs c) (Username c) (Password c) (DB
    c) (MaxRetries c) (MinRetryBackoffInMs c) (MaxRetryBackoffInMs c)
    (DialTimeoutInMs c) (ReadTimeoutInMs c) (WriteTimeoutInMs c) (PoolSize
    c) (MinIdleConns c) (MaxIdleConns c) (MaxConnAgeInMs c) (PoolTimeoutInMs
    c) (IdleTimeoutInMs c) (IdleCheckFrequencyInMs c) (TLSEnabled c)
    (HystrixEnabled c) (hystrix c) v (ReadMode c) (IgnoreReadOnly c).

Definition set_ReadMode (v : string) (c : ClientConfig) : ClientConfig :=
  Build_ClientConfig (ClientMode c) (Addrs c) (Username c) (Password c) (DB
    c) (MaxRetries c) (MinRetryBackoffInMs c) (MaxRetryBackoffInMs c)
    (DialTimeoutInMs c) (ReadTimeoutInMs c) (WriteTimeoutInMs c) (PoolSize
    c) (MinIdleConns c) (MaxIdleConns c) (MaxConnAgeInMs c) (PoolTimeoutInMs
    c) (IdleTimeoutInMs c) (IdleCheckFrequencyInMs c) (TLSEnabled c)
    (HystrixEnabled c) (hystrix c) (MaxRedirects c) v (IgnoreReadOnly c).

Definition set_IgnoreReadOnly (v : bool) (c : ClientConfig) : ClientConfig :=
  Build_ClientConfig (ClientMode c) (Addrs c) (Username c) (Password c) (DB
    c) (MaxRetries c) (MinRetryBackoffInMs c) (MaxRetryBackoffInMs c)
    (DialTimeoutInMs c) (ReadTimeoutInMs c) (WriteTimeoutInMs c) (PoolSize
    c) (MinIdleConns c) (MaxIdleConns c) (MaxConnAgeInMs c) (PoolTimeoutInMs
    c) (IdleTimeoutInMs c) (IdleCheckFrequencyInMs c) (TLSEnabled c)
    (HystrixEnabled c) (hystrix c) (MaxRedirects c) (ReadMode c) v.

#[global] Instance Hystrix_eq_dec : EqDecision Hystrix.
Proof. solve_decision. Defined.

(** [h.Equals(hystrix)] *)
Definition Equals (h hystrix : Hystrix) : bool :=
  (TimeoutInMs h =? TimeoutInMs hystrix)
  && (MaxConcurrentRequests h =? MaxConcurrentRequests hystrix)
  && (RequestVolumeThreshold h =? RequestVolumeThreshold hystrix)
  && (ErrorPercentThreshold h =? ErrorPercentThreshold hystrix)
  && (SleepWindowInMs h =? SleepWindowInMs hystrix)
  && (QueueSizeRejectionThreshold h =? QueueSizeRejectionThreshold hystrix).

(** [sort.Strings]: byte-wise lexicographic order. *)
Definition string_le (s1 s2 : string) : Prop := String.leb s1 s2 = true.

#[global] Instance string_le_dec (s1 s2 : string) : Decision (string_le s1 s2).
Proof. unfold string_le. apply _. Defined.

Definition sort_Strings (l : list string) : list string :=
  merge_sort string_le l.

(** [strings.Join(l, sep)] *)
Fixpoint Join (l : list string) (sep : string) : string :=
  match l with
  | [] => ""
  | [s] => s
  | s :: rest => String.append s (String.append sep (Join rest sep))
  end.

(** [c.name()].  Outside single-host mode the addresses are sorted in place:
    the second component is the configuration afterwards. *)
Definition name (c : ClientConfig) : string * ClientConfig :=
  match Addrs c with
  | [] => (defaultHostAndPort, c)
  | a0 :: _ =>
      if String.eqb (ClientMode c) ModeSingleHost then (a0, c)
      else
        let sorted := sort_Strings (Addrs c) in
        (Join sorted ",", set_Addrs sorted c)
  end.

(** [c.init()] *)
Definition init (c : ClientConfig) : ClientConfig :=
  let c := if bool_decide (length (Addrs c) = 0%nat)
           then set_Addrs [defaultHostAndPort] c else c in
  let c := if String.eqb (ReadMode c) "" || String.eqb (ReadMode c) ucmEmptyString
           then set_ReadMode defaultReadMode c else c in
  let c := if String.eqb (Username c) ucmEmptyString
           then set_Username "" c else c in
  let c := if String.eqb (Password c) ucmEmptyString
           then set_Password "" c else c in
  let c := if DialTimeoutInMs c =? 0
           then set_DialTimeoutInMs defaultDialTimeoutInMs c else c in
  let c := if TimeoutInMs (hystrix c) =? 0
           then set_hystrix (set_TimeoutInMs defaultCBTimeoutInMS (hystrix c)) c
           else c in
  let c := if MaxConcurrentRequests (hystrix c) =? 0
           then set_hystrix
                  (set_MaxConcurrentRequests defaultCBMaxConcurrent (hystrix c)) c
           else c in
  let c := if ErrorPercentThreshold (hystrix c) =? 0
           then set_hystrix
                  (set_ErrorPercentThreshold defaultCBErrPercent (hystrix c)) c
           else c in
  c.

(** [c.validate()] *)
Definition validate (c : ClientConfig) : option error :=
  if bool_decide (length (Addrs c) = 0%nat) then
    Some (errorString "no addrs found in config")
  else if negb (ClientMode_IsValid (ClientMode c)) then
    Some (errorString
            (String.append "client mode "
               (String.append (ClientMode c) " is not valid")))
  else if negb (ReadMode_IsValid (ReadMode c)) then
    Some (errorString
            (String.append "read mode "
               (String.append (ClientMode c) " is not valid")))
  else None.

(** [isAddrsEquals].  Both slices are sorted in place once the lengths
    agree: the result carries them as they are afterwards. *)
Definition isAddrsEquals (addrs1 addrs2 : list string)
  : bool * list string * list string :=
  if negb (bool_decide (length addrs1 = length addrs2)) then
    (false, addrs1, addrs2)
  else
    let addrs1 := sort_Strings addrs1 in
    let addrs2 := sort_Strings addrs2 in
    (forallb (fun p => String.eqb p.1 p.2) (zip addrs1 addrs2), addrs1, addrs2).

(** [c.validateReload(config)], with both configurations as it leaves
    them. *)
Definition validateReload (c config : ClientConfig)
  : option error * ClientConfig * ClientConfig :=
  match validate config with
  | Some err => (Some err, c, config)
  | None =>
      if negb (String.eqb (ClientMode c) (ClientMode config)) then
        (Some (errorString "client mode change is not allowed in reloading"),
         c, config)
      else if negb (DB c =? DB config) then
        (Some (errorString "DB change is not allowed in reloading"), c, config)
      else
        let '(eq, a1, a2) := isAddrsEquals (Addrs c) (Addrs config) in
        if negb eq then
          (Some (errorString "addrs change is not allowed in reloading"),
           set_Addrs a1 c, set_Addrs a2 config)
        else (None, set_Addrs a1 c, set_Addrs a2 config)
  end.

(** [ConnectorConfig] *)
Record ConnectorConfig := {
  Main : ClientConfig;
  LoadTests : list ClientConfig;
  HotReload : bool;
  ProcessAllLoadTestPackets : bool;
  SchedulerWorkerNumber : Z;
  SchedulerChannelSize : Z;
  SchedulerWorkerIdleTimeoutInMs : Z;
}.

(** [c.initAndValidate()]: the configuration afterwards, unless a backend
    fails validation. *)
Definition initAndValidate (c : ConnectorConfig)
  : option error * ConnectorConfig :=
  let main := init (Main c) in
  let loadTests := init <$> LoadTests c in
  let c1 := {| Main := main; LoadTests := LoadTests c;
               HotReload := HotReload c;
               ProcessAllLoadTestPackets := ProcessAllLoadTestPackets c;
               SchedulerWorkerNumber := SchedulerWorkerNumber c;
               SchedulerChannelSize := SchedulerChannelSize c;
               SchedulerWorkerIdleTimeoutInMs :=
                 SchedulerWorkerIdleTimeoutInMs c |} in
  match validate main with
  | Some err => (Some err, c1)
  | None =>
      match head (omap validate loadTests) with
      | Some err =>
          (Some err,
           {| Main := main; LoadTests := loadTests;
              HotReload := HotReload c;
              ProcessAllLoadTestPackets := ProcessAllLoadTestPackets c;
              SchedulerWorkerNumber := SchedulerWorkerNumber c;
              SchedulerChannelSize := SchedulerChannelSize c;
              SchedulerWorkerIdleTimeoutInMs :=
                SchedulerWorkerIdleTimeoutInMs c |})
      | None =>
          (None,
           {| Main := main; LoadTests := loadTests;
              HotReload := HotReload c;
              ProcessAllLoadTestPackets := ProcessAllLoadTestPackets c;
              SchedulerWorkerNumber :=
                (if SchedulerWorkerNumber c =? 0 then defaultMaxWorker
                 else SchedulerWorkerNumber c);
              SchedulerChannelSize :=
                (if SchedulerChannelSize c =? 0 then defaultMaxChanSize
                 else SchedulerChannelSize c);
              SchedulerWorkerIdleTimeoutInMs :=
                (if SchedulerWorkerIdleTimeoutInMs c =? 0
                 then defaultWorkerIdleTimeout
                 else SchedulerWorkerIdleTimeoutInMs c) |})
      end
  end.

End Config.

(** ** The per-node limiter *)

Module Limiter.
Import Go CircuitBreaker Config.

(** The lower layer's [IsReadOnlyError]: the message starts with
    ["READONLY "]. *)
Definition IsReadOnlyError (err : error) : bool :=
  HasPrefix (Error err) "READONLY ".

(** The type assertion [err.(goredis.Error)]. *)
Definition is_goredis_Error (err : error) : bool :=
  match err with
  | RedisError _ => true
  | _ => false
  end.

(** [shouldCountAsCBError] *)
Definition shouldCountAsCBError (err : option error) : bool :=
  match err with
  | None => false
  | Some e =>
      if errors_Is e Canceled then false
      else if IsReadOnlyError e then true
      else if is_goredis_Error e then false
      else true
  end.

(** [getDefaultCBOptions] *)
Definition getDefaultCBOptions : list Option :=
  [WithUserErrorHandler (fun err => (negb (shouldCountAsCBError err), err))].

(** The limiter installed on a node. *)
Record limiter := { key : string; cbOptions : list Option }.

(** [newLimiter] *)
Definition newLimiter (key : string) (cbOptions : list Option) : limiter :=
  {| key := key; cbOptions := cbOptions |}.

(** [generateCBKey] *)
Definition generateCBKey (addr : string) : string :=
  String.append "redis_" addr.

End Limiter.

(** ** The lower layer: commands, servers and the connection pool *)

Module Goredis.
Import Go CircuitBreaker Config Limiter.

(** [goredis.Nil], the reply of an absent key. *)
Definition Nil : error := RedisError "redis: nil".

(** [Cmd]: the arguments and, once executed, the reply and the error. *)
Record Cmd := {
  cmd_ctx : Context;
  cmd_args : list value;
  cmd_val : value;
  cmd_err : option error;
}.

(** [NewCmd(ctx, args...)] *)
Definition NewCmd (ctx : Context) (args : list value) : Cmd :=
  {| cmd_ctx := ctx; cmd_args := args; cmd_val := VNil; cmd_err := None |}.

(** [cmd.Result()] *)
Definition Result (cmd : Cmd) : value * option error :=
  (cmd_val cmd, cmd_err cmd).

(** [CommandInfo], of which the dispatcher reads [ReadOnly] only. *)
Record CommandInfo := { Name : string; ReadOnly : bool }.

(** [map[string]*CommandInfo]: a present key may hold a nil pointer. *)
Abbreviation catalog := (gmap string (option CommandInfo)).

(** [m[name]] on such a map: nil for an absent key. *)
Definition index (m : catalog) (name : string) : option CommandInfo :=
  default None (m !! name).

(** One exchange with the lower layer: the context it was given and what
    was sent. *)
Definition call : Type := Context * list value.

(** What is behind a pool: for every command, given the exchanges so far,
    either a reply or an error (a negative reply of the server, a transport
    or pool error, the error of the context), and a command catalog. *)
Record Server := {
  respond : list call -> Context -> list value -> value + error;
  commands : list call -> Context -> catalog * option error;
}.

(** The in-place setters of a running pool, and the breaker registry calls
    made on its behalf. *)
Inductive pool_call :=
| SetUsername (v : string)
| SetPassword (v : string)
| SetMaxRetries (v : Z)
| SetMinRetryBackoff (d : Z)
| SetMaxRetryBackoff (d : Z)
| SetDialTimeout (d : Z)
| SetReadTimeout (d : Z)
| SetWriteTimeout (d : Z)
| SetPoolSize (v : Z)
| SetMinIdleConns (v : Z)
| SetMaxIdleConns (v : Z)
| SetMaxConnAge (d : Z)
| SetPoolTimeout (d : Z)
| SetIdleTimeout (d : Z)
| SetIdleCheckFrequency (d : Z)
| SetMaxRedirects (v : Z)
| SetReadOnly (b : bool)
| SetRouteByLatency (b : bool)
| SetRouteRandomly (b : bool)
| configureHystrix (cbKey : string) (setting : Hystrix)
| hystrix_Flush
| SetLimiter (shard : string) (l : option limiter).

(** A single-node client or a cluster client, with what the dispatcher has
    done to it. *)
Record clientWrapper := {
  server : Server;
  calls : list call;
  pool : list pool_call;
  shards : list string;
  closed : bool;
}.

Definition log_call (c : call) (w : clientWrapper) : clientWrapper :=
  {| server := server w; calls := calls w ++ [c]; pool := pool w;
     shards := shards w; closed := closed w |}.

Definition log_pool (p : list pool_call) (w : clientWrapper) : clientWrapper :=
  {| server := server w; calls := calls w; pool := pool w ++ p;
     shards := shards w; closed := closed w |}.

Definition ErrClosed : error := errorString "redis: client is closed".

(** What the pool answers to one command: [ErrClosed] once closed, else
    what the server behind it replies. *)
Definition reply (w : clientWrapper) (ctx : Context) (args : list value)
  : value + error :=
  if closed w then inr ErrClosed
  else respond (server w) (calls w) ctx args.

(** Hands [cmd] to the pool and stores the outcome in it: the reply, or the
    error with a nil value. *)
Definition Process (cmd : Cmd) (w : clientWrapper) : clientWrapper * Cmd :=
  let w' := if closed w then w else log_call (cmd_ctx cmd, cmd_args cmd) w in
  match reply w (cmd_ctx cmd) (cmd_args cmd) with
  | inl v =>
      (w', {| cmd_ctx := cmd_ctx cmd; cmd_args := cmd_args cmd;
              cmd_val := v; cmd_err := None |})
  | inr e =>
      (w', {| cmd_ctx := cmd_ctx cmd; cmd_args := cmd_args cmd;
              cmd_val := VNil; cmd_err := Some e |})
  end.

(** [Do(ctx, args...)] *)
Definition Do (ctx : Context) (args : list value) (w : clientWrapper)
  : clientWrapper * Cmd :=
  Process (NewCmd ctx args) w.

(** [pipe.Exec(ctx)]: the queued commands are executed in the order they
    were queued, each one receiving its own reply. *)
Fixpoint Exec (cmds : list Cmd) (w : clientWrapper)
  : clientWrapper * list Cmd :=
  match cmds with
  | [] => (w, [])
  | cmd :: rest =>
      let '(w1, cmd') := Process cmd w in
      let '(w2, rest') := Exec rest w1 in
      (w2, cmd' :: rest')
  end.

(** [Publish(ctx, channel, message).Result()]: an integer command, whose
    value is 0 when it failed. *)
Definition Publish (ctx : Context) (channel : string) (message : value)
  (w : clientWrapper) : clientWrapper * (value * option error) :=
  let '(w', cmd) := Do ctx [VString "publish"; VString channel; message] w in
  (w', match cmd_err cmd with
       | Some _ => (VInt 0, cmd_err cmd)
       | None => Result cmd
       end).

(** [Subscribe(ctx, channels...)]: the subscription is asked for under
    [ctx]. *)
Definition Subscribe (ctx : Context) (channels : list string)
  (w : clientWrapper) : clientWrapper :=
  if closed w then w
  else log_call (ctx, VString "subscribe" :: (VString <$> channels)) w.

(** [Command(ctx).Result()] *)
Definition Command (ctx : Context) (w : clientWrapper)
  : catalog * option error :=
  if closed w then (∅, Some ErrClosed)
  else commands (server w) (calls w) ctx.

(** [Close()] *)
Definition Close (w : clientWrapper) : clientWrapper :=
  {| server := server w; calls := calls w; pool := pool w;
     shards := shards w; closed := true |}.

End Goredis.

(** ** The client of one backend *)

Module Client.
Import Go Redisapi CircuitBreaker Config Limiter Goredis.

Definition redisEval : string := "EVAL".
Definition redisEvalSha : string := "EVALSHA".
Definition redisErrNoScript : string := "NOSCRIPT ".

(** Which of the two wrappers [createClient] built. *)
Inductive wrapper := clientWrapperImpl | clusterWrapperImpl.

(** [clientImpl].  The wrapper and the client share one configuration
    object, kept once here. *)
Record clientImpl := {
  wrapperType : wrapper;
  wrappedClient : clientWrapper;
  closeChan : bool;              (* true once the channel is closed *)
  config : ClientConfig;
  cbOptions : list CircuitBreaker.Option;
  cmdCache : catalog;
}.

Definition set_wrappedClient (w : clientWrapper) (c : clientImpl) : clientImpl :=
  {| wrapperType := wrapperType c; wrappedClient := w;
     closeChan := closeChan c; config := config c;
     cbOptions := cbOptions c; cmdCache := cmdCache c |}.

Definition set_config (cfg : ClientConfig) (c : clientImpl) : clientImpl :=
  {| wrapperType := wrapperType c; wrappedClient := wrappedClient c;
     closeChan := closeChan c; config := cfg;
     cbOptions := cbOptions c; cmdCache := cmdCache c |}.

(** What the lower layer finds behind a list of seed addresses: a server
    and the roster of its nodes. *)
Definition Network : Type := list string -> Server * list string.

(** The limiter set-up of [singleHostOptions] and of the [NewClient] hook of
    [clusterOptions], for one node. *)
Definition install_limiter (c : ClientConfig) (cbOptions : list CircuitBreaker.Option)
  (addr : string) : list pool_call :=
  let cbKey := generateCBKey addr in
  [configureHystrix cbKey (hystrix c); SetLimiter addr (Some (newLimiter cbKey cbOptions))].

(** [c.createClient(cbOptions)] *)
Definition createClient (net : Network) (c : ClientConfig)
  (cbOptions : list CircuitBreaker.Option) : option (wrapper * clientWrapper) :=
  if String.eqb (ClientMode c) ModeCluster
     || String.eqb (ClientMode c) ModeMasterSlaveGroup then
    let '(srv, roster) := net (Addrs c) in
    Some (clusterWrapperImpl,
          {| server := srv; calls := [];
             pool := if HystrixEnabled c
                     then roster ≫= install_limiter c cbOptions else [];
             shards := roster; closed := false |})
  else if String.eqb (ClientMode c) ModeSingleHost then
    let addr := match Addrs c with a0 :: _ => a0 | [] => defaultHostAndPort end in
    Some (clientWrapperImpl,
          {| server := (net [addr]).1; calls := [];
             pool := if HystrixEnabled c
                     then install_limiter c cbOptions addr else [];
             shards := [addr]; closed := false |})
  else None.

(** [newClient(ctx, config, ClientCBOptions(cbOptions))]: the error, or the
    client built. *)
Definition newClient (net : Network) (ctx : Context) (config : ClientConfig)
  (cbOptions : list CircuitBreaker.Option) : error + clientImpl :=
  match createClient net config cbOptions with
  | None => inl (errorString "invalid client mode to init Redis client")
  | Some (t, w) =>
      let '(cache, _) := Command ctx w in
      match ctx_Err ctx with
      | Some err => inl err
      | None =>
          inr {| wrapperType := t; wrappedClient := w; closeChan := false;
                 config := config; cbOptions := cbOptions;
                 cmdCache := cache |}
      end
  end.

(** One [if c.config.F != config.F { c.config.F = config.F; c.SetF(..) }]
    of the wrappers' [reload]. *)
Definition sync {A} `{EqDecision A} (get : ClientConfig -> A)
  (set : A -> ClientConfig -> ClientConfig) (setter : A -> pool_call)
  (config : ClientConfig) (st : ClientConfig * clientWrapper)
  : ClientConfig * clientWrapper :=
  if decide (get st.1 = get config) then st
  else (set (get config) st.1, log_pool [setter (get config)] st.2).

(** The run of such blocks that both wrappers' [reload] start with, from
    [Username] to [IdleCheckFrequencyInMs]. *)
Definition reload_pool (config : ClientConfig)
  (st : ClientConfig * clientWrapper) : ClientConfig * clientWrapper :=
  let st := sync Username set_Username SetUsername config st in
  let st := sync Password set_Password SetPassword config st in
  let st := sync MaxRetries set_MaxRetries SetMaxRetries config st in
  let st := sync MinRetryBackoffInMs set_MinRetryBackoffInMs
              (fun v => SetMinRetryBackoff (parseDurationInMs v)) config st in
  let st := sync MaxRetryBackoffInMs set_MaxRetryBackoffInMs
              (fun v => SetMaxRetryBackoff (parseDurationInMs v)) config st in
  let st := sync DialTimeoutInMs set_DialTimeoutInMs
              (fun v => SetDialTimeout (parseDurationInMs v)) config st in
  let st := sync ReadTimeoutInMs set_ReadTimeoutInMs
              (fun v => SetReadTimeout (parseDurationInMs v)) config st in
  let st := sync WriteTimeoutInMs set_WriteTimeoutInMs
              (fun v => SetWriteTimeout (parseDurationInMs v)) config st in
  let st := sync PoolSize set_PoolSize SetPoolSize config st in
  let st := sync MinIdleConns set_MinIdleConns SetMinIdleConns config st in
  let st := sync MaxIdleConns set_MaxIdleConns SetMaxIdleConns config st in
  let st := sync MaxConnAgeInMs set_MaxConnAgeInMs
              (fun v => SetMaxConnAge (parseDurationInMs v)) config st in
  let st := sync PoolTimeoutInMs set_PoolTimeoutInMs
              (fun v => SetPoolTimeout (parseDurationInMs v)) config st in
  let st := sync IdleTimeoutInMs set_IdleTimeoutInMs
              (fun v => SetIdleTimeout (parseDurationInMs v)) config st in
  let st := sync IdleCheckFrequencyInMs set_IdleCheckFrequencyInMs
              (fun v => SetIdleCheckFrequency (parseDurationInMs v)) config st in
  st.

(** [reconfigureHystrix(cbKey, setting)] followed by [SetLimiter] on one
    node. *)
Definition reinstall_limiter (config : ClientConfig)
  (cbOptions : list CircuitBreaker.Option) (addr : string) : list pool_call :=
  let cbKey := generateCBKey addr in
  [configureHystrix cbKey (hystrix config); hystrix_Flush;
   SetLimiter addr (Some (newLimiter cbKey cbOptions))].

(** The breaker block of [reload]: on the only node of a single-host client,
    on each shard of a cluster client. *)
Definition reload_hystrix (config : ClientConfig)
  (cbOptions : list CircuitBreaker.Option)
  (st : ClientConfig * clientWrapper) : ClientConfig * clientWrapper :=
  let '(c, w) := st in
  let '(c, w) :=
    if HystrixEnabled config then
      if negb (Equals (hystrix c) (hystrix config)) || negb (HystrixEnabled c)
      then (set_hystrix (hystrix config) c,
            log_pool (shards w ≫= reinstall_limiter config cbOptions) w)
      else (c, w)
    else (c, log_pool ((fun addr => SetLimiter addr None) <$> shards w) w) in
  (set_HystrixEnabled (HystrixEnabled config) c, w).

(** The read-routing block of the cluster wrapper's [reload]. *)
Definition reload_ReadMode (config : ClientConfig)
  (st : ClientConfig * clientWrapper) : ClientConfig * clientWrapper :=
  let '(c, w) := st in
  if String.eqb (ReadMode c) (ReadMode config) then st
  else
    let '(readOnly, routeByLatency, routeRandomly) :=
      if String.eqb (ReadMode config) ModeReadFromMaster then (false, false, false)
      else if String.eqb (ReadMode config) ModeReadFromSlaves then (true, false, false)
      else if String.eqb (ReadMode config) ModeReadByLatency then (false, true, false)
      else if String.eqb (ReadMode config) ModeReadRandomly then (false, false, true)
      else (false, false, false) in
    (set_ReadMode (ReadMode config) c,
     log_pool [SetReadOnly readOnly; SetRouteByLatency routeByLatency;
               SetRouteRandomly routeRandomly] w).

(** An assignment to a field of the client's configuration. *)
Definition on_config (f : ClientConfig -> ClientConfig)
  (st : ClientConfig * clientWrapper) : ClientConfig * clientWrapper :=
  (f st.1, st.2).

(** What the wrappers' [reload] does once the new configuration has passed
    [validateReload]: the pool parameters, the breaker block, and then
    [IgnoreReadOnly] for the single-host wrapper, [MaxRedirects],
    [IgnoreReadOnly] and the read routing for the cluster wrapper. *)
Definition apply_reload (t : wrapper) (config : ClientConfig)
  (cbOptions : list CircuitBreaker.Option)
  (st : ClientConfig * clientWrapper) : ClientConfig * clientWrapper :=
  match t with
  | clientWrapperImpl =>
      on_config (set_IgnoreReadOnly (IgnoreReadOnly config))
        (reload_hystrix config cbOptions (reload_pool config st))
  | clusterWrapperImpl =>
      reload_ReadMode config
        (on_config (set_IgnoreReadOnly (IgnoreReadOnly config))
           (sync MaxRedirects set_MaxRedirects SetMaxRedirects config
              (reload_hystrix config cbOptions (reload_pool config st))))
  end.

(** [c.wrappedClient.reload(config, cbOptions)] for either wrapper: the
    error, the client's configuration and pool afterwards, and [config] as
    [init] and the address comparison leave it. *)
Definition wrapper_reload (t : wrapper) (config : ClientConfig)
  (cbOptions : list CircuitBreaker.Option)
  (st : ClientConfig * clientWrapper)
  : option error * (ClientConfig * clientWrapper) * ClientConfig :=
  match validateReload st.1 (init config) with
  | (Some err, c, config) => (Some err, (c, st.2), config)
  | (None, c, config) =>
      (None, apply_reload t config cbOptions (c, st.2), config)
  end.

(** [c.reload(config)] *)
Definition reload (config : ClientConfig) (c : clientImpl)
  : option error * clientImpl * ClientConfig :=
  let '(err, (cfg, w), config) :=
    wrapper_reload (wrapperType c) config (cbOptions c)
      (Client.config c, wrappedClient c) in
  (err, set_config cfg (set_wrappedClient w c), config).

(** [c.ifCommandReadonly(name)] *)
Definition ifCommandReadonly (c : clientImpl) (name : string)
  : bool * option error :=
  if bool_decide (size (cmdCache c) = 0%nat)
     || bool_decide (index (cmdCache c) name = None)
  then (false, Some (errorString "no command cache"))
  else match index (cmdCache c) name with
       | Some info => (ReadOnly info, None)
       | None => (false, None)
       end.

(** [c.getResultFromCommand(cmd)] *)
Definition getResultFromCommand (cmd : Cmd) : value * option error :=
  let '(reply, err) := Result cmd in
  let err := if decide (err = Some Nil) then None else err in
  (reply, err).

(** [c.getResultFromCommands(cmds)] *)
Definition getResultFromCommands (cmds : list Cmd)
  : list ReplyPair * option error :=
  foldl (fun '(results, err) '(idx, cmd) =>
           let '(v, e) := getResultFromCommand cmd in
           let results := <[idx := {| Value := v; Err := e |}]> results in
           let err := match err, e with
                      | None, Some _ => e
                      | _, _ => err
                      end in
           (results, err))
        (replicate (length cmds) {| Value := VNil; Err := None |}, None)
        (imap pair cmds).

(** [c.do(ctx, args...)] *)
Definition do (ctx : Context) (args : list value) (c : clientImpl)
  : clientImpl * (value * option error) :=
  let '(w, cmd) := Goredis.Do ctx args (wrappedClient c) in
  (set_wrappedClient w c, getResultFromCommand cmd).

(** [c.Do(ctx, cmdName, args...)] *)
Definition Do (ctx : Context) (cmdName : string) (args : list value)
  (c : clientImpl) : clientImpl * (value * option error) :=
  let allArgs := Add (NewArgs [VString cmdName]) args in
  do ctx allArgs c.

Definition DoReadOnly := Do.

(** [c.Pipeline(ctx, argsList)] *)
Definition Pipeline (ctx : Context) (argsList : list (list value))
  (c : clientImpl) : clientImpl * (list ReplyPair * option error) :=
  let ctx := Background in
  let cmds := (fun args => NewCmd ctx args) <$> argsList in
  let '(w, cmds) := Exec cmds (wrappedClient c) in
  (set_wrappedClient w c, getResultFromCommands cmds).

Definition PipelineReadOnly := Pipeline.

(** [c.Run(ctx, script, keysAndArgs...)] *)
Definition Run (ctx : Context) (script : Script) (keysAndArgs : list value)
  (c : clientImpl) : clientImpl * (value * option error) :=
  let args := GetHashAndArgs script keysAndArgs in
  let allArgs := Add (NewArgs [VString redisEvalSha]) args in
  let '(c, (reply, err)) := do ctx allArgs c in
  match err with
  | Some e =>
      if HasPrefix (Error e) redisErrNoScript then
        let args := GetScriptAndArgs script keysAndArgs in
        let allArgs := Add (NewArgs [VString redisEval]) args in
        do ctx allArgs c
      else (c, (reply, err))
  | None => (c, (reply, err))
  end.

Definition RunReadOnly := Run.

(** [c.Publish(ctx, channelName, value)] *)
Definition Publish (ctx : Context) (channelName : string) (v : value)
  (c : clientImpl) : clientImpl * (value * option error) :=
  let '(w, r) := Goredis.Publish Background channelName v (wrappedClient c) in
  (set_wrappedClient w c, r).

(** [SubscribeResponse], without its channel and goroutine. *)
Record SubscribeResponse := {
  chanBufferSize : Z;
  channels : list string;
}.

(** [c.Subscribe(ctx, chanBufferSize, channels...)] *)
Definition Subscribe (ctx : Context) (chanBufferSize : Z)
  (channels : list string) (c : clientImpl)
  : clientImpl * (SubscribeResponse * option error) :=
  let w := Goredis.Subscribe Background channels (wrappedClient c) in
  (set_wrappedClient w c,
   ({| chanBufferSize := chanBufferSize; channels := channels |}, None)).

(** [c.ShutDown(ctx)]: the pool is closed, then the close channel. *)
Definition ShutDown (ctx : Context) (c : clientImpl) : clientImpl :=
  {| wrapperType := wrapperType c;
     wrappedClient := Close (wrappedClient c);
     closeChan := true; config := config c;
     cbOptions := cbOptions c; cmdCache := cmdCache c |}.

End Client.

(** ** The latency ring *)

Module Latencies.

(** Signed 64-bit wrap-around. *)
Definition wrap64 (z : Z) : Z := (z + 2 ^ 63) mod 2 ^ 64 - 2 ^ 63.

Record latencies := {
  values : list Z;
  index : Z;
  added : Z;
}.

(** [newLatencies(l)] *)
Definition newLatencies (l : nat) : latencies :=
  {| values := replicate l 0; index := -1; added := 0 |}.

(** [l.Add(value)].  [None] is the run-time panic of a zero-length ring or
    of an index gone negative. *)
Definition Add (value : Z) (l : latencies) : option latencies :=
  let len := Z.of_nat (length (values l)) in
  let index' := wrap64 (index l + 1) in
  if len =? 0 then None
  else
    let i := Z.rem index' len in
    if i <? 0 then None
    else Some {| values := <[Z.to_nat i := value]> (values l);
                 index := index';
                 added := wrap64 (added l + 1) |}.

(** The conversion [float64(n)] of a signed 64-bit integer, rounding to
    nearest. *)
Definition float64 (n : Z) : PrimFloat.float :=
  let abs := Z.abs n in
  let f := if abs <? 2 ^ 63 then PrimFloat.of_uint63 (Uint63.of_Z abs)
           else PrimFloat.mul (PrimFloat.of_uint63 (Uint63.of_Z (2 ^ 62)))
                              (PrimFloat.of_uint63 (Uint63.of_Z 2)) in
  if n <? 0 then PrimFloat.opp f else f.

(** [l.Average()] *)
Definition Average (l : latencies) : PrimFloat.float :=
  let added := added l in
  let length := if added <? Z.of_nat (length (values l)) then added
                else Z.of_nat (length (values l)) in
  if length <=? 0 then PrimFloat.zero
  else
    let total := foldl (fun total v => wrap64 (total + v)) 0
                   (take (Z.to_nat length) (values l)) in
    PrimFloat.div (float64 total) (float64 length).

End Latencies.

(** ** The shadow scheduler *)

Module Scheduler.
Import Go Config Latencies.

Record schedulerOptions := {
  maxChanSize : Z;
  maxWorker : Z;
  workerIdleTimeout : Z;
}.

(** [s.normalise()] *)
Definition normalise (s : schedulerOptions) : schedulerOptions :=
  {| maxChanSize := if maxChanSize s <=? 0 then defaultMaxChanSize
                    else maxChanSize s;
     maxWorker := if maxWorker s <=? 0 then defaultMaxWorker else maxWorker s;
     workerIdleTimeout := if workerIdleTimeout s <=? 0
                          then defaultWorkerIdleTimeout
                          else workerIdleTimeout s |}.

(** [int64(math.Ceil(x))] for a binary64 [x]; a value that is not finite
    converts to the smallest integer. *)
Definition int64_Ceil (x : PrimFloat.float) : Z :=
  match FloatOps.Prim2SF x with
  | SpecFloat.S754_zero _ => 0
  | SpecFloat.S754_finite s m e =>
      let q := if 0 <=? e then Z.pos m * 2 ^ e else Z.pos m / 2 ^ (- e) in
      let whole := if 0 <=? e then true else Z.pos m mod 2 ^ (- e) =? 0 in
      if s then - q else if whole then q else q + 1
  | _ => - 2 ^ 63
  end.

(** The worker demand that [start] computes for a non-empty backlog. *)
Definition need (backlog : Z) (avgLatency : PrimFloat.float) : Z :=
  if PrimFloat.ltb PrimFloat.zero avgLatency then
    int64_Ceil (PrimFloat.mul (float64 backlog)
                  (PrimFloat.div avgLatency (float64 1000000000)))
  else 1.

Section Scheduler.
(** What the queued functions act on. *)
Context {Σ : Type}.

(** [func(ctx context.Context)] *)
Definition task : Type := Context -> Σ -> Σ.

(** [scheduler]: the channel with its capacity, and the counters. *)
Record scheduler := {
  fnChan : list task;
  fnChan_cap : Z;
  fnChan_closed : bool;
  s_maxWorker : Z;
  s_workerIdleTimeout : Z;
  s_latencies : latencies;
  numWorker : Z;
  wg : Z;
}.

(** [newScheduler(options)], after [normalise]. *)
Definition newScheduler (options : schedulerOptions) : scheduler :=
  let options := normalise options in
  {| fnChan := []; fnChan_cap := maxChanSize options; fnChan_closed := false;
     s_maxWorker := maxWorker options;
     s_workerIdleTimeout := workerIdleTimeout options;
     s_latencies := newLatencies 1000;
     numWorker := 0; wg := 0 |}.

Definition set_fnChan (q : list task) (s : scheduler) : scheduler :=
  {| fnChan := q; fnChan_cap := fnChan_cap s; fnChan_closed := fnChan_closed s;
     s_maxWorker := s_maxWorker s; s_workerIdleTimeout := s_workerIdleTimeout s;
     s_latencies := s_latencies s; numWorker := numWorker s; wg := wg s |}.

Definition set_counters (n w : Z) (s : scheduler) : scheduler :=
  {| fnChan := fnChan s; fnChan_cap := fnChan_cap s;
     fnChan_closed := fnChan_closed s;
     s_maxWorker := s_maxWorker s; s_workerIdleTimeout := s_workerIdleTimeout s;
     s_latencies := s_latencies s; numWorker := n; wg := w |}.

Definition set_latencies (l : latencies) (s : scheduler) : scheduler :=
  {| fnChan := fnChan s; fnChan_cap := fnChan_cap s;
     fnChan_closed := fnChan_closed s;
     s_maxWorker := s_maxWorker s; s_workerIdleTimeout := s_workerIdleTimeout s;
     s_latencies := l; numWorker := numWorker s; wg := wg s |}.

(** Whether a send on [fnChan] can proceed at once. *)
Definition has_room (s : scheduler) : bool :=
  Z.of_nat (length (fnChan s)) <? fnChan_cap s.

(** [s.fnChan <- fn] once there is room. *)
Definition send (fn : task) (s : scheduler) : scheduler :=
  set_fnChan (fnChan s ++ [fn]) s.

(** Where the goroutine running [start] stands: at its [select], inside the
    spawning loop with the loop variable and the demand, or returned. *)
Inductive monitor :=
| Selecting
| Spawning (i need : Z)
| Returned.

(** The scheduler with its goroutines: the monitor, the [spawnWorker]
    goroutines that [go] has created and that have not yet run their first
    statement, those inside their loop, the scheduler's context and what the
    queued functions act on. *)
Record system := {
  sched : scheduler;
  ctx : Context;
  pc : monitor;
  created : nat;
  looping : nat;
  store : Σ;
}.

(** What can happen next. *)
Inductive event :=
| Enqueue (fn : task)       (* a dispatcher sends on [fnChan], which has room *)
| Tick                      (* the 100 ms ticker fires, [start] takes that case *)
| Loop                      (* [start] evaluates its loop condition once *)
| WorkerBegin               (* a created goroutine runs [numWorker.Inc()] *)
| WorkerTask (elapsed : Z)  (* a worker receives a function and runs it *)
| WorkerExit                (* idle ticker or done context: a worker returns *)
| Cancel                    (* the scheduler's context is cancelled *)
| MonitorStop.              (* [start] takes the done case *)

(** One step of [start] or of one [spawnWorker]; [None] when the event
    cannot happen in this state. *)
Definition step (ev : event) (st : system) : option system :=
  let s := sched st in
  match ev with
  | Enqueue fn =>
      if has_room s && negb (fnChan_closed s) then
        Some {| sched := send fn s; ctx := ctx st; pc := pc st;
                created := created st; looping := looping st;
                store := store st |}
      else None
  | Tick =>
      match pc st with
      | Selecting =>
          let backlog := Z.of_nat (length (fnChan s)) in
          if backlog =? 0 then Some st
          else
            let need := need backlog (Average (s_latencies s)) in
            Some {| sched := s; ctx := ctx st; pc := Spawning 0 need;
                    created := created st; looping := looping st;
                    store := store st |}
      | _ => None
      end
  | Loop =>
      match pc st with
      | Spawning i need =>
          if (i <? need) && (numWorker s <? s_maxWorker s) then
            Some {| sched := set_counters (numWorker s) (wg s + 1) s;
                    ctx := ctx st; pc := Spawning (i + 1) need;
                    created := S (created st); looping := looping st;
                    store := store st |}
          else
            Some {| sched := s; ctx := ctx st; pc := Selecting;
                    created := created st; looping := looping st;
                    store := store st |}
      | _ => None
      end
  | WorkerBegin =>
      match created st with
      | S n =>
          Some {| sched := set_counters (numWorker s + 1) (wg s) s;
                  ctx := ctx st; pc := pc st;
                  created := n; looping := S (looping st);
                  store := store st |}
      | O => None
      end
  | WorkerTask elapsed =>
      match looping st, fnChan s with
      | S _, fn :: rest =>
          match Add elapsed (s_latencies s) with
          | Some l =>
              Some {| sched := set_latencies l (set_fnChan rest s);
                      ctx := ctx st; pc := pc st;
                      created := created st; looping := looping st;
                      store := fn (ctx st) (store st) |}
          | None => None
          end
      | _, _ => None
      end
  | WorkerExit =>
      match looping st with
      | S n =>
          Some {| sched := set_counters (numWorker s - 1) (wg s - 1) s;
                  ctx := ctx st; pc := pc st;
                  created := created st; looping := n;
                  store := store st |}
      | O => None
      end
  | Cancel =>
      Some {| sched := s; ctx := CanceledCtx; pc := pc st;
              created := created st; looping := looping st;
              store := store st |}
  | MonitorStop =>
      match pc st, ctx_Err (ctx st) with
      | Selecting, Some _ =>
          if wg s =? 0 then
            Some {| sched :=
                      {| fnChan := fnChan s; fnChan_cap := fnChan_cap s;
                         fnChan_closed := true;
                         s_maxWorker := s_maxWorker s;
                         s_workerIdleTimeout := s_workerIdleTimeout s;
                         s_latencies := s_latencies s;
                         numWorker := numWorker s; wg := wg s |};
                    ctx := ctx st; pc := Returned;
                    created := created st; looping := looping st;
                    store := store st |}
          else None
      | _, _ => None
      end
  end.

(** A schedule: the events in the order they happen. *)
Fixpoint run (evs : list event) (st : system) : option system :=
  match evs with
  | [] => Some st
  | ev :: rest =>
      match step ev st with
      | Some st' => run rest st'
      | None => None
      end
  end.

(** The goroutines running [spawnWorker]. *)
Definition live_workers (st : system) : Z :=
  Z.of_nat (created st) + Z.of_nat (looping st).

End Scheduler.

Arguments scheduler : clear implicits.
Arguments system : clear implicits.
Arguments task : clear implicits.
Arguments event : clear implicits.

End Scheduler.

(** ** The connector: dispatcher and reload coordinator *)

Module Connector.
Import Go Redisapi CircuitBreaker Config Limiter Goredis Client Scheduler.

(** The shadow clients are reached through pointers, from the connector's
    list and from the functions queued on the scheduler: [heap] maps each
    pointer to the object it refers to, and a new object gets a pointer that
    refers to nothing yet. *)
Abbreviation heap := (gmap nat clientImpl).

Record connectorImpl := {
  client : clientImpl;
  loadTestClients : list nat;
  clients : heap;
  processAllLoadTestPackets : bool;
  schedulerOptions : Scheduler.schedulerOptions;
  loadTestScheduler : scheduler heap;
  cbOptions : list CircuitBreaker.Option;
  dropped : nat;                   (* the queue-full error counter *)
}.

Definition set_client (p : clientImpl) (c : connectorImpl) : connectorImpl :=
  {| client := p; loadTestClients := loadTestClients c;
     clients := clients c;
     processAllLoadTestPackets := processAllLoadTestPackets c;
     schedulerOptions := schedulerOptions c;
     loadTestScheduler := loadTestScheduler c;
     cbOptions := cbOptions c; dropped := dropped c |}.

Definition set_processAllLoadTestPackets (b : bool) (c : connectorImpl)
  : connectorImpl :=
  {| client := client c; loadTestClients := loadTestClients c;
     clients := clients c;
     processAllLoadTestPackets := b;
     schedulerOptions := schedulerOptions c;
     loadTestScheduler := loadTestScheduler c;
     cbOptions := cbOptions c; dropped := dropped c |}.

Definition set_loadTestScheduler (s : scheduler heap) (d : nat)
  (c : connectorImpl) : connectorImpl :=
  {| client := client c; loadTestClients := loadTestClients c;
     clients := clients c;
     processAllLoadTestPackets := processAllLoadTestPackets c;
     schedulerOptions := schedulerOptions c;
     loadTestScheduler := s;
     cbOptions := cbOptions c; dropped := d |}.

(** The loop of [NewDynamicConnector] that builds the shadow clients: it
    stops at the first error. *)
Fixpoint new_loadTestClients (net : Network) (ctx : Context)
  (cbOptions : list CircuitBreaker.Option) (configs : list ClientConfig)
  (h : heap) : error + (list nat * heap) :=
  match configs with
  | [] => inr ([], h)
  | config :: rest =>
      match newClient net ctx config cbOptions with
      | inl err => inl err
      | inr cl =>
          let p := fresh (dom h) in
          match new_loadTestClients net ctx cbOptions rest (<[p := cl]> h) with
          | inl err => inl err
          | inr (ps, h') => inr (p :: ps, h')
          end
      end
  end.

(** [NewDynamicConnector(ctx, configurer)] with the default options, for a
    configurer whose [Unmarshal] yields [snapshot]. *)
Definition NewDynamicConnector (net : Network) (ctx : Context)
  (snapshot : ConnectorConfig) : error + connectorImpl :=
  let cbOptions := getDefaultCBOptions in
  match initAndValidate snapshot with
  | (Some err, _) => inl err
  | (None, config) =>
      match newClient net ctx (Main config) cbOptions with
      | inl err => inl err
      | inr main =>
          match new_loadTestClients net ctx cbOptions (LoadTests config) ∅ with
          | inl err => inl err
          | inr (ps, h) =>
              let options :=
                {| maxChanSize := SchedulerChannelSize config;
                   maxWorker := SchedulerWorkerNumber config;
                   workerIdleTimeout :=
                     parseDurationInMs (SchedulerWorkerIdleTimeoutInMs config) |} in
              inr {| client := main; loadTestClients := ps; clients := h;
                     processAllLoadTestPackets :=
                       ProcessAllLoadTestPackets config;
                     schedulerOptions := normalise options;
                     loadTestScheduler := newScheduler options;
                     cbOptions := cbOptions; dropped := 0 |}
          end
      end
  end.

(** The first loop of [reload]: the current shadows grouped by
    [client.config.name()], which sorts the addresses of each in place.
    [None] is the panic of a pointer that refers to nothing. *)
Fixpoint group_by_name (ps : list nat) (m : gmap string (list nat)) (h : heap)
  : option (gmap string (list nat) * heap) :=
  match ps with
  | [] => Some (m, h)
  | p :: rest =>
      cl ← h !! p;
      let '(nm, cfg) := name (config cl) in
      group_by_name rest (<[nm := default [] (m !! nm) ++ [p]]> m)
        (<[p := set_config cfg cl]> h)
  end.

(** What the second loop of [reload] works on. *)
Record reloading := {
  r_main : clientImpl;
  r_clients : heap;
  loadTestMap : gmap string (list nat);
  newLoadTestClients : list nat;   (* the slots filled so far, in order *)
}.

(** The second loop of [reload], over [config.LoadTests]: the error
    returned, if any, and the state it is left in. *)
Fixpoint reload_loadTests (net : Network) (ctx : Context)
  (cbOptions : list CircuitBreaker.Option) (configs : list ClientConfig)
  (st : reloading) : option (option error * reloading) :=
  match configs with
  | [] => Some (None, st)
  | config :: rest =>
      let '(nm, config) := name config in
      let clients := default [] (loadTestMap st !! nm) in
      match last clients with
      | Some p =>
          let m := <[nm := take (length clients - 1) clients]> (loadTestMap st) in
          let '(eq, a1, a2) :=
            isAddrsEquals (Addrs (Client.config (r_main st))) (Addrs config) in
          let main := set_config (set_Addrs a1 (Client.config (r_main st)))
                        (r_main st) in
          let config := set_Addrs a2 config in
          if eq then
            Some (Some (errorString
                          "can't share the same address with the main client"),
                  {| r_main := main; r_clients := r_clients st;
                     loadTestMap := m;
                     newLoadTestClients := newLoadTestClients st |})
          else
            cl ← r_clients st !! p;
            let '(err, cl', _) := Client.reload config cl in
            let st' := {| r_main := main;
                          r_clients := <[p := cl']> (r_clients st);
                          loadTestMap := m;
                          newLoadTestClients := newLoadTestClients st ++ [p] |} in
            match err with
            | Some e => Some (Some e, st')
            | None => reload_loadTests net ctx cbOptions rest st'
            end
      | None =>
          match newClient net ctx config cbOptions with
          | inl err => Some (Some err, st)
          | inr cl =>
              let p := fresh (dom (r_clients st)) in
              reload_loadTests net ctx cbOptions rest
                {| r_main := r_main st;
                   r_clients := <[p := cl]> (r_clients st);
                   loadTestMap := loadTestMap st;
                   newLoadTestClients := newLoadTestClients st ++ [p] |}
          end
      end
  end.

(** The last loop of [reload]: every client left in the map is shut down. *)
Fixpoint shutdown_all (ctx : Context) (ps : list nat) (h : heap) : option heap :=
  match ps with
  | [] => Some h
  | p :: rest =>
      cl ← h !! p;
      shutdown_all ctx rest (<[p := ShutDown ctx cl]> h)
  end.

(** Whether [reload] finds a scheduler parameter changed. *)
Definition scheduler_changed (c : connectorImpl) (config : ConnectorConfig)
  : bool :=
  negb (maxWorker (schedulerOptions c) =? SchedulerWorkerNumber config)
  || negb (maxChanSize (schedulerOptions c) =? SchedulerChannelSize config)
  || negb (workerIdleTimeout (schedulerOptions c)
           =? parseDurationInMs (SchedulerWorkerIdleTimeoutInMs config)).

(** [c.reload(ctx, config)]: the error returned and the connector
    afterwards; [None] is a run-time panic. *)
Definition reload (net : Network) (ctx : Context) (config : ConnectorConfig)
  (c : connectorImpl) : option (option error * connectorImpl) :=
  if negb (HotReload config) then Some (None, c)
  else
    let c := set_processAllLoadTestPackets (ProcessAllLoadTestPackets config) c in
    if scheduler_changed c config then
      Some (Some (errorString
                    "dual write worker number/channel size change is not allowed in reloading"),
            c)
    else
      let '(err, main, _) := Client.reload (Main config) (client c) in
      let c := set_client main c in
      match err with
      | Some e => Some (Some e, c)
      | None =>
          '(m, h) ← group_by_name (loadTestClients c) ∅ (clients c);
          '(err, st) ← reload_loadTests net ctx (cbOptions c) (LoadTests config)
                         {| r_main := main; r_clients := h;
                            loadTestMap := m;
                            newLoadTestClients := [] |};
          match err with
          | Some e =>
              Some (Some e,
                    {| client := r_main st;
                       loadTestClients := loadTestClients c;
                       clients := r_clients st;
                       processAllLoadTestPackets := processAllLoadTestPackets c;
                       schedulerOptions := schedulerOptions c;
                       loadTestScheduler := loadTestScheduler c;
                       cbOptions := cbOptions c; dropped := dropped c |})
          | None =>
              h' ← shutdown_all ctx
                     (concat ((map_to_list (loadTestMap st)).*2)) (r_clients st);
              Some (None,
                    {| client := r_main st;
                       loadTestClients := newLoadTestClients st;
                       clients := h';
                       processAllLoadTestPackets := processAllLoadTestPackets c;
                       schedulerOptions := schedulerOptions c;
                       loadTestScheduler := loadTestScheduler c;
                       cbOptions := cbOptions c; dropped := dropped c |})
          end
      end.

(** The callback that [NewDynamicConnector] registers with [OnChange], run
    when the configurer's [Unmarshal] yields [snapshot]. *)
Definition onChange (net : Network) (ctx : Context) (snapshot : ConnectorConfig)
  (c : connectorImpl) : option (option error * connectorImpl) :=
  match initAndValidate snapshot with
  | (Some err, _) => Some (Some err, c)
  | (None, connectorOptions) => reload net ctx connectorOptions c
  end.

(** The function that [queueLoadTest] puts on the channel for one shadow. *)
Definition queued (fn : Context -> clientImpl -> clientImpl) (p : nat)
  : task heap :=
  fun ctx h =>
    match ctx_Err ctx with
    | Some _ => h
    | None => alter (fn ctx) p h
    end.

(** [c.queueLoadTest(fn)].  With [processAllLoadTestPackets] the send blocks
    while the channel is full: [None] stands for a caller that waits for a
    worker.  Without it a full channel drops the request and counts it. *)
Fixpoint queueLoadTest_loop (fn : Context -> clientImpl -> clientImpl)
  (strict : bool) (ps : list nat) (s : scheduler heap) (dropped : nat)
  : option (scheduler heap * nat) :=
  match ps with
  | [] => Some (s, dropped)
  | p :: rest =>
      if has_room s then
        queueLoadTest_loop fn strict rest (send (queued fn p) s) dropped
      else if strict then None
      else queueLoadTest_loop fn strict rest s (S dropped)
  end.

Definition queueLoadTest (fn : Context -> clientImpl -> clientImpl)
  (c : connectorImpl) : option connectorImpl :=
  '(s, d) ← queueLoadTest_loop fn (processAllLoadTestPackets c)
              (loadTestClients c) (loadTestScheduler c) (dropped c);
  Some (set_loadTestScheduler s d c).

(** The dispatcher.  Every operation returns the connector afterwards and
    what the caller receives; the counters and warnings of
    [logHystrixError] are not kept. *)
Definition on_primary {R} (op : clientImpl -> clientImpl * R)
  (c : connectorImpl) : connectorImpl * R :=
  let '(p, r) := op (client c) in (set_client p c, r).

(** [c.Do(ctx, cmdName, args...)] *)
Definition Do (ctx : Context) (cmdName : string) (args : list value)
  (c : connectorImpl) : option (connectorImpl * (value * option error)) :=
  if IgnoreReadOnly (Client.config (client c))
     && (ifCommandReadonly (client c) cmdName).1
  then Some (on_primary (Client.Do ctx cmdName args) c)
  else
    c ← queueLoadTest (fun ctx client => (Client.Do ctx cmdName args client).1) c;
    Some (on_primary (Client.Do ctx cmdName args) c).

(** [c.DoReadOnly(ctx, cmdName, args...)] *)
Definition DoReadOnly (ctx : Context) (cmdName : string) (args : list value)
  (c : connectorImpl) : option (connectorImpl * (value * option error)) :=
  if IgnoreReadOnly (Client.config (client c))
     && (ifCommandReadonly (client c) cmdName).1
  then Some (on_primary (Client.DoReadOnly ctx cmdName args) c)
  else
    c ← queueLoadTest
          (fun ctx client => (Client.DoReadOnly ctx cmdName args client).1) c;
    Some (on_primary (Client.DoReadOnly ctx cmdName args) c).

(** [c.Pipeline(ctx, argsList)] *)
Definition Pipeline (ctx : Context) (argsList : list (list value))
  (c : connectorImpl)
  : option (connectorImpl * (list ReplyPair * option error)) :=
  c ← queueLoadTest (fun ctx client => (Client.Pipeline ctx argsList client).1) c;
  Some (on_primary (Client.Pipeline ctx argsList) c).

(** [c.PipelineReadOnly(ctx, argsList)] *)
Definition PipelineReadOnly (ctx : Context) (argsList : list (list value))
  (c : connectorImpl)
  : option (connectorImpl * (list ReplyPair * option error)) :=
  c ← queueLoadTest
        (fun ctx client => (Client.PipelineReadOnly ctx argsList client).1) c;
  Some (on_primary (Client.PipelineReadOnly ctx argsList) c).

(** [c.Run(ctx, script, keysAndArgs...)] *)
Definition Run (ctx : Context) (script : Script) (keysAndArgs : list value)
  (c : connectorImpl) : option (connectorImpl * (value * option error)) :=
  c ← queueLoadTest
        (fun ctx client => (Client.Run ctx script keysAndArgs client).1) c;
  Some (on_primary (Client.Run ctx script keysAndArgs) c).

(** [c.RunReadOnly(ctx, script, keysAndArgs...)] *)
Definition RunReadOnly (ctx : Context) (script : Script)
  (keysAndArgs : list value) (c : connectorImpl)
  : option (connectorImpl * (value * option error)) :=
  c ← queueLoadTest
        (fun ctx client => (Client.RunReadOnly ctx script keysAndArgs client).1) c;
  Some (on_primary (Client.RunReadOnly ctx script keysAndArgs) c).

(** [c.Publish(ctx, channelName, value)] *)
Definition Publish (ctx : Context) (channelName : string) (v : value)
  (c : connectorImpl) : option (connectorImpl * (value * option error)) :=
  c ← queueLoadTest
        (fun ctx client => (Client.Publish ctx channelName v client).1) c;
  Some (on_primary (Client.Publish ctx channelName v) c).

(** [c.Subscribe(ctx, chanBufferSize, channels...)] *)
Definition Subscribe (ctx : Context) (chanBufferSize : Z)
  (channels : list string) (c : connectorImpl)
  : option (connectorImpl * (SubscribeResponse * option error)) :=
  c ← queueLoadTest
        (fun ctx client => (Client.Subscribe ctx chanBufferSize channels client).1) c;
  Some (on_primary (Client.Subscribe ctx chanBufferSize channels) c).

(** The exchanges the primary's pool has had. *)
Definition primary_calls (c : connectorImpl) : list call :=
  calls (wrappedClient (client c)).

End Connector.

(** ** The specification's vocabulary *)

Module Spec.
Import Go Redisapi CircuitBreaker Config Limiter Goredis Client Scheduler
  Connector.

(** The classification of 4.C, read as the ordered list it is: nil and
    cancellation are no threat, a read-only error is one, any other error of
    the server is none, everything else is one. *)
Definition threat_by_spec (err : option error) : bool :=
  match err with
  | None => false
  | Some e =>
      negb (errors_Is e Canceled)
      && (IsReadOnlyError e || negb (is_goredis_Error e))
  end.

(** An error that a protected call returned does, or does not, raise the
    breaker's tracked-error count under the default options. *)
Definition counted (err : option error) : Prop :=
  forall m, tracked_errors (observe getDefaultCBOptions m err)
            = S (tracked_errors m).

Definition not_counted (err : option error) : Prop :=
  forall m, tracked_errors (observe getDefaultCBOptions m err)
            = tracked_errors m.

(** What the caller is to see for one outcome of the lower layer: the nil
    reply is a nil value and no error, any other error is passed on. *)
Definition surfaced (r : value + error) : ReplyPair :=
  match r with
  | inl v => {| Value := v; Err := None |}
  | inr e => if decide (e = Nil) then {| Value := VNil; Err := None |}
             else {| Value := VNil; Err := Some e |}
  end.

(** What the pool answers to each command of a batch, in order. *)
Fixpoint replies (w : clientWrapper) (ctx : Context)
  (argsList : list (list value)) : list (value + error) :=
  match argsList with
  | [] => []
  | args :: rest =>
      reply w ctx args :: replies (Process (NewCmd ctx args) w).1 ctx rest
  end.

(** The first non-nil error of a sequence of pairs. *)
Definition first_error (results : list ReplyPair) : option error :=
  head (omap Err results).

(** The pair that [getResultFromCommands] stores for one command. *)
Definition slot (cmd : Cmd) : ReplyPair :=
  {| Value := (getResultFromCommand cmd).1; Err := (getResultFromCommand cmd).2 |}.

Definition keep_first (err : option error) (results : list ReplyPair)
  : option error :=
  match err with
  | Some _ => err
  | None => first_error results
  end.

(** The pool once it has been handed the commands of [argsList]. *)
Definition pool_after (w : clientWrapper) (ctx : Context)
  (argsList : list (list value)) : clientWrapper :=
  foldl (fun w args => (Process (NewCmd ctx args) w).1) w argsList.

(** A reply that asks for the script source. *)
Definition noscript (r : value + error) : bool :=
  match r with
  | inl _ => false
  | inr e => HasPrefix (Error e) redisErrNoScript
  end.

(** The two forms of a script call. *)
Definition evalsha (script : Script) (keysAndArgs : list value) : list value :=
  VString redisEvalSha :: GetHashAndArgs script keysAndArgs.

Definition eval (script : Script) (keysAndArgs : list value) : list value :=
  VString redisEval :: GetScriptAndArgs script keysAndArgs.

(** A lower layer that answers a done context with that context's error. *)
Definition honours_context (srv : Server) : Prop :=
  forall hist ctx args e, ctx_Err ctx = Some e -> respond srv hist ctx args = inr e.

(** [cl'] is [cl] with its stored addresses in another order. *)
Definition reordered (cl cl' : clientImpl) : Prop :=
  exists addrs, addrs ≡ₚ Addrs (Client.config cl)
                /\ cl' = set_config (set_Addrs addrs (Client.config cl)) cl.

(** Every client of [h] is in [h'], neither closed nor reopened. *)
Definition kept_open (h h' : heap) : Prop :=
  forall p cl, h !! p = Some cl ->
               exists cl', h' !! p = Some cl'
                           /\ closed (wrappedClient cl') = closed (wrappedClient cl).

End Spec.

(** ** Concrete backends and configurations *)

Module Examples.
Import Go Redisapi CircuitBreaker Config Limiter Goredis Client Scheduler Connector.

Definition is_cmd (nm : string) (args : list value) : bool :=
  match args with
  | VString s :: _ => String.eqb s nm
  | _ => false
  end.

(** A server that answers a done context with its error, knows a script
    only after an EVAL, has no key, and accepts everything else. *)
Definition script_server : Server :=
  {| respond := fun hist ctx args =>
       match ctx_Err ctx with
       | Some e => inr e
       | None =>
           if is_cmd "EVALSHA" args then
             if existsb (fun c => is_cmd "EVAL" c.2) hist
             then inl (VString "hello")
             else inr (RedisError "NOSCRIPT No matching script. Please use EVAL.")
           else if is_cmd "EVAL" args then inl (VString "hello")
           else if is_cmd "GET" args then inr Nil
           else if is_cmd "BAD" args then inr (RedisError "ERR unknown command")
           else inl (VString "OK")
       end;
     commands := fun _ _ =>
       ({[ "get" := Some {| Name := "get"; ReadOnly := true |};
           "set" := Some {| Name := "set"; ReadOnly := false |} ]}, None) |}.

Definition net : Network := fun addrs => (script_server, addrs).

Definition no_hystrix : Hystrix :=
  {| TimeoutInMs := 0; MaxConcurrentRequests := 0; RequestVolumeThreshold := 0;
     ErrorPercentThreshold := 0; SleepWindowInMs := 0;
     QueueSizeRejectionThreshold := 0 |}.

(** A single-host backend at [addr], with database [db] and pool size
    [poolSize]; every other field is left at its zero value. *)
Definition singleHost (addr : string) (db poolSize : Z) : ClientConfig :=
  {| ClientMode := ModeSingleHost; Addrs := [addr]; Username := "";
     Password := ""; DB := db; MaxRetries := 0; MinRetryBackoffInMs := 0;
     MaxRetryBackoffInMs := 0; DialTimeoutInMs := 0; ReadTimeoutInMs := 0;
     WriteTimeoutInMs := 0; PoolSize := poolSize; MinIdleConns := 0;
     MaxIdleConns := 0; MaxConnAgeInMs := 0; PoolTimeoutInMs := 0;
     IdleTimeoutInMs := 0; IdleCheckFrequencyInMs := 0; TLSEnabled := false;
     HystrixEnabled := false; hystrix := no_hystrix; MaxRedirects := 0;
     ReadMode := ""; IgnoreReadOnly := false |}.

(** A connector configuration with hot reload on and the scheduler
    parameters left to their defaults. *)
Definition snapshot (main : ClientConfig) (loadTests : list ClientConfig)
  (strict : bool) : ConnectorConfig :=
  {| Main := main; LoadTests := loadTests; HotReload := true;
     ProcessAllLoadTestPackets := strict; SchedulerWorkerNumber := 0;
     SchedulerChannelSize := 0; SchedulerWorkerIdleTimeoutInMs := 0 |}.

Definition script : Script :=
  {| keyCount := 0; src := "return ARGV[1]";
     hash := "098e0f0d1448c0a81dafe820f66d460eb09263da" |}.

(** The client that [newClient] builds for a single host at a:6379. *)
Definition client_a : clientImpl :=
  {| wrapperType := clientWrapperImpl;
     wrappedClient := {| server := script_server; calls := []; pool := [];
                         shards := ["a:6379"]; closed := false |};
     closeChan := false;
     Client.config := singleHost "a:6379" 0 10;
     Client.cbOptions := getDefaultCBOptions;
     cmdCache := (commands script_server [] Background).1 |}.

(** The client that a connector builds for [config]. *)
Definition client_for (config : ClientConfig) : clientImpl :=
  {| wrapperType := clientWrapperImpl;
     wrappedClient := {| server := script_server; calls := []; pool := [];
                         shards := Addrs config; closed := false |};
     closeChan := false;
     Client.config := init config;
     Client.cbOptions := getDefaultCBOptions;
     cmdCache := (commands script_server [] Background).1 |}.

(** The connector built for a primary at a:6379 and the given single-host
    shadows, in strict mode or not. *)
Definition connector_for (shadows : list ClientConfig) (strict : bool)
  : connectorImpl :=
  {| client := client_for (singleHost "a:6379" 0 10);
     loadTestClients := seq 0 (length shadows);
     clients := list_to_map (zip (seq 0 (length shadows)) (client_for <$> shadows));
     processAllLoadTestPackets := strict;
     schedulerOptions := {| maxChanSize := 10000; maxWorker := 10;
                            workerIdleTimeout := 1000000000 |};
     loadTestScheduler := newScheduler {| maxChanSize := 10000; maxWorker := 10;
                                          workerIdleTimeout := 1000000000 |};
     Connector.cbOptions := getDefaultCBOptions;
     dropped := 0 |}.

(** A primary at a:6379 with one shadow at b:6379, in strict mode. *)
Definition connector_ab : connectorImpl :=
  connector_for [singleHost "b:6379" 0 10] true.

(** A scheduler as [newScheduler] returns it for at most one worker, with
    its goroutine [start] at the select and no worker yet. *)
Definition one_worker_scheduler : system heap :=
  {| sched := newScheduler {| maxChanSize := 0; maxWorker := 1;
                              workerIdleTimeout := 0 |};
     ctx := Background; pc := Selecting; created := 0; looping := 0;
     store := ∅ |}.

(** A queued function that finds no shadow to act on. *)
Definition idle_task : task heap := fun _ h => h.

(** One task is queued and served in one second by the worker that the
    monitor spawns for it; the worker idles out.  Two more tasks are queued;
    at the next tick the monitor goes twice round its loop before either of
    the two goroutines it creates has run its first statement. *)
Definition overshoot : list (event heap) :=
  [Enqueue idle_task; Tick; Loop; Loop; WorkerBegin;
   WorkerTask 1000000000; WorkerExit;
   Enqueue idle_task; Enqueue idle_task; Tick; Loop; Loop;
   WorkerBegin; WorkerBegin].


End Examples.

(** * Properties *)

Section ScriptArgs.
Import Go Redisapi.

Lemma copy_replicate (x : value) (l : list value) :
  copy (replicate (length l) x) l = l.
Proof. induction l as [|y l IH]; simpl; [done | by rewrite IH]. Qed.

(** C9. For every script with key count [k] and every argument list,
    [GetHashAndArgs] returns [hash; k; arguments...] when [k >= 0] and
    [hash; arguments...] when [k < 0], and [GetScriptAndArgs] returns the
    same list with the script source in place of the hash. *)
Theorem script_args_layout (s : Script) (keysAndArgs : list value) :
  GetHashAndArgs s keysAndArgs =
    (if decide (0 <= keyCount s)
     then VString (hash s) :: VInt (keyCount s) :: keysAndArgs
     else VString (hash s) :: keysAndArgs)
  /\ GetScriptAndArgs s keysAndArgs =
    (if decide (0 <= keyCount s)
     then VString (src s) :: VInt (keyCount s) :: keysAndArgs
     else VString (src s) :: keysAndArgs).
Proof.
  unfold GetHashAndArgs, GetScriptAndArgs, args, copy_from, make.
  destruct (Z.ltb_spec (keyCount s) 0) as [Hneg | Hpos].
  - rewrite !decide_False by lia. simpl.
    by rewrite !drop_0, !copy_replicate.
  - rewrite !decide_True by lia. simpl.
    by rewrite !drop_0, !copy_replicate.
Qed.

End ScriptArgs.

Section BreakerCounting.
Import Go CircuitBreaker Limiter Spec.

Lemma shouldCount_threat_by_spec (err : option error) :
  shouldCountAsCBError err = threat_by_spec err.
Proof.
  destruct err as [e|]; [|done]. unfold shouldCountAsCBError, threat_by_spec.
  destruct (errors_Is e Canceled); [done|].
  destruct (IsReadOnlyError e); [done|].
  by destruct (is_goredis_Error e).
Qed.

(** What [run] hands to the breaker under the default options is the
    routine's error when it is a threat and nil otherwise. *)
Lemma handleError_default (err : option error) :
  (handleError (makeOption getDefaultCBOptions) err).1
  = if shouldCountAsCBError err then err else None.
Proof.
  destruct err as [e|]; [|done]. unfold handleError, makeOption.
  cbn -[shouldCountAsCBError].
  by destruct (shouldCountAsCBError (Some e)).
Qed.

Lemma observe_default (m : metrics) (err : option error) :
  tracked_errors (observe getDefaultCBOptions m err)
  = (tracked_errors m + if threat_by_spec err then 1 else 0)%nat.
Proof.
  unfold observe, report. cbn [tracked_errors].
  rewrite handleError_default, shouldCount_threat_by_spec.
  destruct (threat_by_spec err) eqn:Ht; [|lia].
  destruct err as [e|]; [lia | done].
Qed.

Lemma errors_Is_sentinels (e : error) :
  errors_Is e DeadlineExceeded = true ->
  errors_Is e Canceled = false /\ is_goredis_Error e = false.
Proof.
  induction e as [| | msg | msg | msg e IH]; simpl; try done.
  intros H. split; [|done].
  destruct (decide (wrapError msg e = Canceled)) as [?|_]; [done|].
  destruct (decide (wrapError msg e = DeadlineExceeded)) as [?|_]; [done|].
  by apply IH.
Qed.

Lemma threat_counted (err : option error) :
  threat_by_spec err = true -> counted err.
Proof. intros H m. rewrite observe_default, H. lia. Qed.

Lemma no_threat_not_counted (err : option error) :
  threat_by_spec err = false -> not_counted err.
Proof. intros H m. rewrite observe_default, H. lia. Qed.

(** C1. Over any sequence of errors returned by breaker-protected calls,
    the tracked-error count under the default non-threat predicate grows by
    one exactly for the errors that are threats: a nil error, a cancellation
    and an error reported by the server are not counted; a deadline expiry, a
    read-only error of the protocol and every other error are. *)
Theorem default_predicate_counts_threats :
  (forall (m : metrics) (errs : list (option error)),
     tracked_errors (observe_all getDefaultCBOptions m errs)
     = (tracked_errors m + length (filter (fun e => threat_by_spec e = true) errs))%nat)
  /\ not_counted None
  /\ (forall e, errors_Is e Canceled = true -> not_counted (Some e))
  /\ (forall msg, HasPrefix msg "READONLY " = false ->
        not_counted (Some (RedisError msg)))
  /\ (forall e, errors_Is e DeadlineExceeded = true -> counted (Some e))
  /\ (forall msg, HasPrefix msg "READONLY " = true ->
        counted (Some (RedisError msg)))
  /\ (forall e, errors_Is e Canceled = false -> is_goredis_Error e = false ->
        counted (Some e)).
Proof.
  split; [|split; [|split; [|split; [|split; [|split]]]]].
  - intros m errs. revert m. unfold observe_all.
    induction errs as [|err errs IH]; intros m; simpl; [lia|].
    rewrite IH, observe_default, filter_cons.
    destruct (threat_by_spec err) eqn:Ht.
    + rewrite decide_True by done. simpl. lia.
    + rewrite decide_False by done. lia.
  - by apply no_threat_not_counted.
  - intros e H. apply no_threat_not_counted. simpl. by rewrite H.
  - intros msg H. apply no_threat_not_counted.
    unfold threat_by_spec, IsReadOnlyError. simpl. by rewrite H.
  - intros e H. destruct (errors_Is_sentinels e H) as [Hc Hg].
    apply threat_counted.
    unfold threat_by_spec. rewrite Hc, Hg. simpl. by rewrite orb_true_r.
  - intros msg H. apply threat_counted.
    unfold threat_by_spec, IsReadOnlyError. simpl. by rewrite H.
  - intros e Hc Hg. apply threat_counted.
    unfold threat_by_spec. rewrite Hc, Hg. simpl. by rewrite orb_true_r.
Qed.

Lemma default_predicate_counts_threats_witness :
  tracked_errors
    (observe_all getDefaultCBOptions {| requests := 0; tracked_errors := 0 |}
       [None; Some Canceled; Some DeadlineExceeded;
        Some (RedisError "ERR unknown command");
        Some (RedisError "READONLY You can't write against a read only replica.");
        Some (errorString "i/o timeout")]) = 3%nat
  /\ not_counted (Some (wrapError "get: context canceled" Canceled))
  /\ not_counted (Some (RedisError "ERR unknown command"))
  /\ counted (Some DeadlineExceeded)
  /\ counted (Some (RedisError "READONLY replica"))
  /\ counted (Some (errorString "i/o timeout")).
Proof.
  destruct default_predicate_counts_threats as (Hcount & _ & Hc & Hs & Hd & Hr & Ho).
  split; [rewrite Hcount; reflexivity|].
  split; [apply Hc; reflexivity|].
  split; [apply Hs; reflexivity|].
  split; [apply Hd; reflexivity|].
  split; [apply Hr; reflexivity|].
  apply Ho; reflexivity.
Defined.

End BreakerCounting.

Section Results.
Import Go Redisapi Goredis Client Spec.

Lemma getResultFromCommands_loop (cmds : list Cmd) (pre : list ReplyPair)
  (k : nat) (err : option error) (z : ReplyPair) :
  length pre = k ->
  foldl (fun '(results, err) '(idx, cmd) =>
           let '(v, e) := getResultFromCommand cmd in
           let results := <[idx := {| Value := v; Err := e |}]> results in
           let err := match err, e with
                      | None, Some _ => e
                      | _, _ => err
                      end in
           (results, err))
        (pre ++ replicate (length cmds) z, err)
        (imap (fun i cmd => ((k + i)%nat, cmd)) cmds)
  = (pre ++ (slot <$> cmds), keep_first err (slot <$> cmds)).
Proof.
  revert pre k err. induction cmds as [|cmd cmds IH]; intros pre k err Hk.
  - simpl. unfold keep_first, first_error. by destruct err.
  - cbn -[getResultFromCommand]. rewrite Nat.add_0_r.
    destruct (getResultFromCommand cmd) as [v e] eqn:Hcmd.
    rewrite insert_app_r_alt by lia. rewrite Hk, Nat.sub_diag.
    cbn -[getResultFromCommand].
    rewrite (imap_ext _ (fun i c => ((S k + i)%nat, c))); last first.
    { intros i x _. simpl. f_equal. lia. }
    rewrite (cons_middle _ pre), (assoc_L (++)).
    rewrite IH by (rewrite length_app; simpl; lia).
    rewrite <- (assoc_L (++)).
    assert (slot cmd = {| Value := v; Err := e |}) as ->
      by (unfold slot; by rewrite Hcmd).
    f_equal. unfold keep_first, first_error. simpl.
    destruct err, e; done.
Qed.

Lemma getResultFromCommands_spec (cmds : list Cmd) :
  getResultFromCommands cmds = (slot <$> cmds, first_error (slot <$> cmds)).
Proof.
  unfold getResultFromCommands.
  exact (getResultFromCommands_loop cmds [] 0 None _ eq_refl).
Qed.

Lemma slot_Process (cmd : Cmd) (w : clientWrapper) :
  slot (Process cmd w).2 = surfaced (reply w (cmd_ctx cmd) (cmd_args cmd)).
Proof.
  unfold Process, slot, getResultFromCommand, surfaced.
  destruct (reply w (cmd_ctx cmd) (cmd_args cmd)) as [v|e]; simpl; [done|].
  destruct (decide (Some e = Some Nil)) as [Heq|Hne];
    destruct (decide (e = Nil)); try done; congruence.
Qed.

Lemma Exec_cons (cmd : Cmd) (rest : list Cmd) (w : clientWrapper) :
  Exec (cmd :: rest) w
  = ((Exec rest (Process cmd w).1).1,
     (Process cmd w).2 :: (Exec rest (Process cmd w).1).2).
Proof.
  simpl. destruct (Process cmd w) as [w1 cmd']. simpl.
  by destruct (Exec rest w1).
Qed.

Lemma slot_Exec (ctx : Context) (argsList : list (list value))
  (w : clientWrapper) :
  slot <$> (Exec ((fun args => NewCmd ctx args) <$> argsList) w).2
  = surfaced <$> replies w ctx argsList.
Proof.
  revert w. induction argsList as [|args rest IH]; intros w; [done|].
  rewrite fmap_cons, Exec_cons. cbn [snd replies].
  by rewrite !fmap_cons, slot_Process, IH.
Qed.

Lemma replies_length (w : clientWrapper) (ctx : Context)
  (argsList : list (list value)) :
  length (replies w ctx argsList) = length argsList.
Proof.
  revert w. induction argsList as [|args rest IH]; intros w; simpl; [done|].
  by rewrite IH.
Qed.

Lemma Pipeline_results (ctx : Context) (argsList : list (list value))
  (c : clientImpl) :
  (Pipeline ctx argsList c).2
  = (surfaced <$> replies (wrappedClient c) Background argsList,
     first_error (surfaced <$> replies (wrappedClient c) Background argsList)).
Proof.
  unfold Pipeline.
  pose proof (slot_Exec Background argsList (wrappedClient c)) as HE.
  destruct (Exec ((fun args => NewCmd Background args) <$> argsList)
              (wrappedClient c)) as [w cmds].
  simpl in *. by rewrite getResultFromCommands_spec, HE.
Qed.

Lemma Do_result (ctx : Context) (cmdName : string) (args : list value)
  (c : clientImpl) :
  (Do ctx cmdName args c).2
  = (let r := surfaced (reply (wrappedClient c) ctx (VString cmdName :: args)) in
     (Value r, Err r)).
Proof.
  unfold Do, do, Goredis.Do, Add, NewArgs.
  pose proof (slot_Process (NewCmd ctx ([VString cmdName] ++ args))
                (wrappedClient c)) as HP.
  destruct (Process (NewCmd ctx ([VString cmdName] ++ args)) (wrappedClient c))
    as [w cmd].
  simpl in *. rewrite <- HP. unfold slot. simpl.
  reflexivity.
Qed.

(** C10. When the lower layer's outcome for a command is its nil-reply
    sentinel, [Do] and the command's slot of [Pipeline] hold a nil value and
    a nil error; any other error is handed to the caller as it is, and a
    reply is handed on with a nil error. *)
Theorem nil_reply_is_no_error (ctx : Context) (c : clientImpl) :
  (forall cmdName args,
     let outcome := reply (wrappedClient c) ctx (VString cmdName :: args) in
     (outcome = inr Nil -> (Do ctx cmdName args c).2 = (VNil, None))
     /\ (forall e, outcome = inr e -> e <> Nil ->
           (Do ctx cmdName args c).2 = (VNil, Some e))
     /\ (forall v, outcome = inl v -> (Do ctx cmdName args c).2 = (v, None)))
  /\ (forall argsList i outcome,
        replies (wrappedClient c) Background argsList !! i = Some outcome ->
        (outcome = inr Nil ->
           (Pipeline ctx argsList c).2.1 !! i = Some {| Value := VNil; Err := None |})
        /\ (forall e, outcome = inr e -> e <> Nil ->
              (Pipeline ctx argsList c).2.1 !! i
              = Some {| Value := VNil; Err := Some e |})
        /\ (forall v, outcome = inl v ->
              (Pipeline ctx argsList c).2.1 !! i
              = Some {| Value := v; Err := None |})).
Proof.
  split.
  - intros cmdName args outcome. rewrite Do_result. fold outcome.
    repeat split.
    + intros ->. done.
    + intros e -> Hne. simpl. by rewrite decide_False.
    + intros v ->. done.
  - intros argsList i outcome Hi. rewrite Pipeline_results. simpl.
    rewrite list_lookup_fmap, Hi. simpl. repeat split.
    + intros ->. done.
    + intros e -> Hne. simpl. by rewrite decide_False.
    + intros v ->. done.
Qed.

End Results.

Section PipelineOrder.
Import Go Redisapi Goredis Client Spec.

Lemma replies_lookup (w : clientWrapper) (ctx : Context)
  (argsList : list (list value)) (i : nat) (args : list value) :
  argsList !! i = Some args ->
  replies w ctx argsList !! i
  = Some (reply (pool_after w ctx (take i argsList)) ctx args).
Proof.
  revert w i. induction argsList as [|a rest IH]; intros w i Hi; [done|].
  destruct i as [|i]; simpl in *.
  - by inversion Hi.
  - by rewrite (IH _ _ Hi).
Qed.

Lemma Process_calls (cmd : Cmd) (w : clientWrapper) :
  closed w = false ->
  closed (Process cmd w).1 = false
  /\ calls (Process cmd w).1 = calls w ++ [(cmd_ctx cmd, cmd_args cmd)].
Proof.
  intros Hopen. unfold Process. rewrite Hopen.
  by destruct (reply w (cmd_ctx cmd) (cmd_args cmd)).
Qed.

Lemma Exec_calls (ctx : Context) (argsList : list (list value))
  (w : clientWrapper) :
  closed w = false ->
  calls (Exec ((fun args => NewCmd ctx args) <$> argsList) w).1
  = calls w ++ ((fun args => (ctx, args)) <$> argsList).
Proof.
  revert w. induction argsList as [|args rest IH]; intros w Hopen.
  - simpl. by rewrite app_nil_r.
  - rewrite fmap_cons, Exec_cons. cbn [fst].
    destruct (Process_calls (NewCmd ctx args) w Hopen) as [Ho Hc].
    rewrite (IH _ Ho), Hc, fmap_cons. simpl. by rewrite <- (assoc_L (++)).
Qed.

Lemma Pipeline_calls (ctx : Context) (argsList : list (list value))
  (c : clientImpl) :
  closed (wrappedClient c) = false ->
  calls (wrappedClient (Pipeline ctx argsList c).1)
  = calls (wrappedClient c) ++ ((fun args => (Background, args)) <$> argsList).
Proof.
  intros Hopen. unfold Pipeline.
  pose proof (Exec_calls Background argsList (wrappedClient c) Hopen) as HE.
  destruct (Exec ((fun args => NewCmd Background args) <$> argsList)
              (wrappedClient c)) as [w cmds].
  simpl in *. by destruct (getResultFromCommands cmds).
Qed.

(** C5. A pipeline call with N input tuples returns N pairs; the i-th pair
    is what the pool answered to the i-th tuple, handed to it after the
    tuples before it, with that command's own error in its slot; the error
    returned beside the pairs is the first non-nil error among them, nil when
    there is none.  An open pool is handed exactly the input tuples, in
    order. *)
Theorem pipeline_pairs_in_input_order (ctx : Context)
  (argsList : list (list value)) (c : clientImpl) :
  let results := (Pipeline ctx argsList c).2.1 in
  let err := (Pipeline ctx argsList c).2.2 in
  length results = length argsList
  /\ (forall i args,
        argsList !! i = Some args ->
        results !! i
        = Some (surfaced
                  (reply (pool_after (wrappedClient c) Background (take i argsList))
                     Background args)))
  /\ err = head (omap Err results)
  /\ (closed (wrappedClient c) = false ->
      calls (wrappedClient (Pipeline ctx argsList c).1)
      = calls (wrappedClient c) ++ ((fun args => (Background, args)) <$> argsList)).
Proof.
  cbn zeta. rewrite Pipeline_results. cbn [fst snd]. repeat split.
  - by rewrite length_fmap, replies_length.
  - intros i args Hi. by rewrite list_lookup_fmap, (replies_lookup _ _ _ _ _ Hi).
  - apply Pipeline_calls.
Qed.

End PipelineOrder.

Section ResultsWitnesses.
Import Go Redisapi Config Limiter Goredis Client Spec Examples.

Lemma client_a_built :
  newClient net Background (singleHost "a:6379" 0 10) getDefaultCBOptions
  = inr client_a.
Proof. reflexivity. Qed.

Lemma nil_reply_is_no_error_witness :
  (Do Background "GET" [VString "k"] client_a).2 = (VNil, None)
  /\ (Do Background "BAD" [] client_a).2
     = (VNil, Some (RedisError "ERR unknown command"))
  /\ (Do Background "SET" [VString "k"; VString "v"] client_a).2
     = (VString "OK", None)
  /\ (Pipeline Background [[VString "SET"; VString "k"; VString "v"];
                             [VString "GET"; VString "k"]] client_a).2.1 !! 1%nat
     = Some {| Value := VNil; Err := None |}.
Proof.
  destruct (nil_reply_is_no_error Background client_a) as [HD HP].
  split; [apply (proj1 (HD "GET" [VString "k"])); reflexivity|].
  split; [apply (proj1 (proj2 (HD "BAD" []))); [reflexivity | discriminate]|].
  split; [apply (proj2 (proj2 (HD "SET" [VString "k"; VString "v"]))); reflexivity|].
  refine (proj1 (HP [[VString "SET"; VString "k"; VString "v"];
                     [VString "GET"; VString "k"]] 1%nat (inr Nil) _) _);
    reflexivity.
Defined.

Lemma pipeline_pairs_in_input_order_witness :
  let argsList := [[VString "SET"; VString "k"; VString "v"]; [VString "BAD"];
                   [VString "GET"; VString "k"]] in
  (Pipeline Background argsList client_a).2.1 !! 1%nat
  = Some {| Value := VNil; Err := Some (RedisError "ERR unknown command") |}
  /\ (Pipeline Background argsList client_a).2.2
     = Some (RedisError "ERR unknown command")
  /\ calls (wrappedClient (Pipeline Background argsList client_a).1)
     = (fun args => (Background, args)) <$> argsList.
Proof.
  intros argsList.
  destruct (pipeline_pairs_in_input_order Background argsList client_a)
    as (_ & Hi & He & Hc).
  split; [rewrite (Hi 1%nat [VString "BAD"]); reflexivity|].
  split; [rewrite He; reflexivity|].
  rewrite Hc; reflexivity.
Defined.

End ResultsWitnesses.

Section Catalog.
Import Go Redisapi Config Limiter Goredis Client Spec Examples.



End Catalog.

Section Dispatch.
Import Go Redisapi Config Limiter Goredis Client Scheduler Connector Spec Examples.

Lemma do_open (ctx : Context) (args : list value) (c : clientImpl) :
  closed (wrappedClient c) = false ->
  closed (wrappedClient (do ctx args c).1) = false
  /\ calls (wrappedClient (do ctx args c).1)
     = calls (wrappedClient c) ++ [(ctx, args)]
  /\ (do ctx args c).2
     = (let r := surfaced (reply (wrappedClient c) ctx args) in (Value r, Err r)).
Proof.
  intros Hopen. unfold do, Goredis.Do.
  pose proof (slot_Process (NewCmd ctx args) (wrappedClient c)) as HS.
  destruct (Process_calls (NewCmd ctx args) (wrappedClient c) Hopen) as [Ho Hc].
  destruct (Process (NewCmd ctx args) (wrappedClient c)) as [w cmd].
  simpl in *. rewrite <- HS. done.
Qed.

Lemma surfaced_noscript (r : value + error) :
  match Err (surfaced r) with
  | Some e => HasPrefix (Error e) redisErrNoScript
  | None => false
  end = noscript r.
Proof.
  destruct r as [v|e]; simpl; [done|].
  destruct (decide (e = Nil)) as [->|]; done.
Qed.

(** [Run] on an open client: the hash form first, the source form after it
    exactly when the first answer asks for the script. *)
Lemma Run_calls (ctx : Context) (script : Script) (keysAndArgs : list value)
  (c : clientImpl) :
  closed (wrappedClient c) = false ->
  calls (wrappedClient (Client.Run ctx script keysAndArgs c).1)
  = calls (wrappedClient c)
    ++ (ctx, evalsha script keysAndArgs)
       :: (if noscript (reply (wrappedClient c) ctx (evalsha script keysAndArgs))
           then [(ctx, eval script keysAndArgs)] else []).
Proof.
  intros Hopen. unfold Client.Run, Add, NewArgs.
  change ([VString redisEvalSha] ++ GetHashAndArgs script keysAndArgs)
    with (evalsha script keysAndArgs).
  change ([VString redisEval] ++ GetScriptAndArgs script keysAndArgs)
    with (eval script keysAndArgs).
  destruct (do_open ctx (evalsha script keysAndArgs) c Hopen) as (Ho & Hc & Hr).
  pose proof (surfaced_noscript
                (reply (wrappedClient c) ctx (evalsha script keysAndArgs))) as Hn.
  destruct (do ctx (evalsha script keysAndArgs) c) as [c1 [rep err]].
  simpl in *. injection Hr as _ ->.
  destruct (Err (surfaced (reply (wrappedClient c) ctx (evalsha script keysAndArgs))))
    as [e|]; rewrite <- Hn.
  - destruct (HasPrefix (Error e) redisErrNoScript).
    + destruct (do_open ctx (eval script keysAndArgs) c1 Ho) as (_ & Hc2 & _).
      rewrite Hc2, Hc. by rewrite <- (assoc_L (++)).
    + done.
  - done.
Qed.

Lemma queueLoadTest_loop_spec (fn : Context -> clientImpl -> clientImpl)
  (strict : bool) (ps : list nat) (s s' : scheduler heap) (d d' : nat) :
  queueLoadTest_loop fn strict ps s d = Some (s', d') ->
  exists sent,
    sublist sent ps
    /\ (strict = true -> sent = ps)
    /\ s' = set_fnChan (fnChan s ++ (queued fn <$> sent)) s
    /\ (d' = d + (length ps - length sent))%nat.
Proof.
  revert s d. induction ps as [|p ps IH]; intros s d; simpl.
  - intros [= <- <-]. exists []. repeat split; [constructor| |simpl; lia].
    destruct s. unfold set_fnChan. simpl. by rewrite app_nil_r.
  - destruct (has_room s) eqn:Hroom.
    + intros H. destruct (IH _ _ H) as (sent & Hsub & Hstrict & Hs & Hd).
      exists (p :: sent).
      split; [by apply sublist_skip|].
      split; [intros Hst; by rewrite (Hstrict Hst)|].
      split; [|simpl; lia].
      rewrite Hs. unfold send, set_fnChan. simpl. by rewrite <- (assoc_L (++)).
    + destruct strict; [done|].
      intros H. destruct (IH _ _ H) as (sent & Hsub & _ & Hs & Hd).
      exists sent.
      split; [by apply sublist_cons|].
      split; [done|].
      split; [done|].
      apply sublist_length in Hsub. simpl. lia.
Qed.

Lemma queueLoadTest_spec (fn : Context -> clientImpl -> clientImpl)
  (c c' : connectorImpl) :
  queueLoadTest fn c = Some c' ->
  client c' = client c
  /\ loadTestClients c' = loadTestClients c
  /\ clients c' = clients c
  /\ exists sent,
       sublist sent (loadTestClients c)
       /\ (processAllLoadTestPackets c = true -> sent = loadTestClients c)
       /\ fnChan (loadTestScheduler c')
          = fnChan (loadTestScheduler c) ++ (queued fn <$> sent).
Proof.
  unfold queueLoadTest. intros H.
  destruct (queueLoadTest_loop fn (processAllLoadTestPackets c)
              (loadTestClients c) (loadTestScheduler c) (dropped c))
    as [[s d]|] eqn:Hloop; [|done].
  simpl in H. injection H as <-.
  destruct (queueLoadTest_loop_spec _ _ _ _ _ _ _ Hloop)
    as (sent & Hsub & Hstrict & -> & _).
  repeat split. exists sent. done.
Qed.

(** Every operation that fans out runs on the primary what the client's
    operation of the same name does, after the shadows' functions have been
    queued. *)
Lemma fan_out_primary {R} (fn : Context -> clientImpl -> clientImpl)
  (op : clientImpl -> clientImpl * R) (c c' : connectorImpl) (r : R) :
  (c1 ← queueLoadTest fn c; Some (on_primary op c1)) = Some (c', r) ->
  (client c', r) = op (client c)
  /\ exists sent,
       sublist sent (loadTestClients c)
       /\ (processAllLoadTestPackets c = true -> sent = loadTestClients c)
       /\ fnChan (loadTestScheduler c')
          = fnChan (loadTestScheduler c) ++ (queued fn <$> sent).
Proof.
  destruct (queueLoadTest fn c) as [c1|] eqn:Hq; [|done].
  destruct (queueLoadTest_spec _ _ _ Hq) as (Hc & _ & _ & sent & Hsub & Hs & Hf).
  simpl. unfold on_primary. rewrite Hc.
  destruct (op (client c)) as [p r']. intros [= <- <-].
  split; [done|]. exists sent. done.
Qed.


End Dispatch.

Section DispatchExamples.
Import Go Redisapi Config Limiter Goredis Client Scheduler Connector Spec Examples.

Lemma connector_ab_built :
  NewDynamicConnector net Background
    (snapshot (singleHost "a:6379" 0 10) [singleHost "b:6379" 0 10] true)
  = inr connector_ab.
Proof. vm_compute. reflexivity. Qed.



End DispatchExamples.

Section CallerContext.
Import Go Redisapi Config Limiter Goredis Client Scheduler Connector Spec Examples.

Lemma Do_primary (ctx : Context) (cmdName : string) (args : list value)
  (c c' : connectorImpl) (r : value * option error) :
  Connector.Do ctx cmdName args c = Some (c', r) ->
  (client c', r) = Client.Do ctx cmdName args (client c).
Proof.
  unfold Connector.Do.
  destruct (IgnoreReadOnly (config (client c))
            && (ifCommandReadonly (client c) cmdName).1).
  - unfold on_primary. destruct (Client.Do ctx cmdName args (client c)).
    by intros [= <- <-].
  - intros H. by destruct (fan_out_primary _ _ _ _ _ H).
Qed.

Lemma DoReadOnly_primary (ctx : Context) (cmdName : string) (args : list value)
  (c c' : connectorImpl) (r : value * option error) :
  Connector.DoReadOnly ctx cmdName args c = Some (c', r) ->
  (client c', r) = Client.Do ctx cmdName args (client c).
Proof.
  unfold Connector.DoReadOnly, Client.DoReadOnly.
  destruct (IgnoreReadOnly (config (client c))
            && (ifCommandReadonly (client c) cmdName).1).
  - unfold on_primary. destruct (Client.Do ctx cmdName args (client c)).
    by intros [= <- <-].
  - intros H. by destruct (fan_out_primary _ _ _ _ _ H).
Qed.

Lemma ctx_Err_not_Nil (ctx : Context) (e : error) :
  ctx_Err ctx = Some e ->
  e <> Nil /\ HasPrefix (Error e) redisErrNoScript = false.
Proof. destruct ctx; intros [= <-]; done. Qed.

(** What [Do] does under a context that the lower layer honours. *)
Lemma client_Do_context (ctx : Context) (cmdName : string) (args : list value)
  (c : clientImpl) :
  closed (wrappedClient c) = false ->
  calls (wrappedClient (Client.Do ctx cmdName args c).1)
  = calls (wrappedClient c) ++ [(ctx, VString cmdName :: args)]
  /\ (honours_context (server (wrappedClient c)) ->
      forall e, ctx_Err ctx = Some e ->
                (Client.Do ctx cmdName args c).2 = (VNil, Some e)).
Proof.
  intros Hopen. unfold Client.Do, Add, NewArgs.
  destruct (do_open ctx ([VString cmdName] ++ args) c Hopen) as (_ & Hc & Hr).
  split; [done|]. intros Hh e He. rewrite Hr.
  unfold reply. rewrite Hopen, (Hh _ _ _ _ He). simpl.
  destruct (ctx_Err_not_Nil _ _ He) as [Hne _]. by rewrite decide_False.
Qed.

(** What [Run] does under a done context that the lower layer honours. *)
Lemma client_Run_context (ctx : Context) (script : Script)
  (keysAndArgs : list value) (c : clientImpl) (e : error) :
  closed (wrappedClient c) = false ->
  honours_context (server (wrappedClient c)) ->
  ctx_Err ctx = Some e ->
  calls (wrappedClient (Client.Run ctx script keysAndArgs c).1)
  = calls (wrappedClient c) ++ [(ctx, evalsha script keysAndArgs)]
  /\ (Client.Run ctx script keysAndArgs c).2 = (VNil, Some e).
Proof.
  intros Hopen Hh He.
  destruct (ctx_Err_not_Nil _ _ He) as [Hne Hpre].
  split.
  - rewrite (Run_calls _ _ _ _ Hopen). unfold reply.
    rewrite Hopen, (Hh _ _ _ _ He). simpl. by rewrite Hpre.
  - unfold Client.Run, Add, NewArgs.
    destruct (do_open ctx ([VString redisEvalSha] ++ GetHashAndArgs script keysAndArgs)
                c Hopen) as (_ & _ & Hr).
    destruct (do ctx ([VString redisEvalSha] ++ GetHashAndArgs script keysAndArgs) c)
      as [c1 [rep err]].
    simpl in Hr. unfold reply in Hr. rewrite Hopen, (Hh _ _ _ _ He) in Hr.
    simpl in Hr. rewrite decide_False in Hr by done. simpl in Hr.
    injection Hr as -> ->. by rewrite Hpre.
Qed.

(** C7, as the code has it.  [Do] and [Run] hand the caller's context to
    the lower layer with every primary attempt, so that a lower layer which
    answers a done context with that context's error has the error returned
    to the caller.  [Pipeline], [Publish] and [Subscribe] hand the lower layer
    a background context whatever the caller's context is: their primary
    attempt and its result are those of a call under a context that is never
    done. *)
Theorem caller_context_governs_do_and_run (ctx : Context) (c : connectorImpl) :
  closed (wrappedClient (client c)) = false ->
  (forall cmdName args c' r,
     Connector.Do ctx cmdName args c = Some (c', r)
     \/ Connector.DoReadOnly ctx cmdName args c = Some (c', r) ->
     primary_calls c' = primary_calls c ++ [(ctx, VString cmdName :: args)]
     /\ (honours_context (server (wrappedClient (client c))) ->
         forall e, ctx_Err ctx = Some e -> r = (VNil, Some e)))
  /\ (forall script keysAndArgs c' r,
        Connector.Run ctx script keysAndArgs c = Some (c', r)
        \/ Connector.RunReadOnly ctx script keysAndArgs c = Some (c', r) ->
        (forall call, call ∈ drop (length (primary_calls c)) (primary_calls c') ->
                      call.1 = ctx)
        /\ (honours_context (server (wrappedClient (client c))) ->
            forall e, ctx_Err ctx = Some e ->
                      r = (VNil, Some e)
                      /\ primary_calls c'
                         = primary_calls c ++ [(ctx, evalsha script keysAndArgs)]))
  /\ (forall argsList c' r,
        Connector.Pipeline ctx argsList c = Some (c', r)
        \/ Connector.PipelineReadOnly ctx argsList c = Some (c', r) ->
        primary_calls c'
        = primary_calls c ++ ((fun args => (Background, args)) <$> argsList)
        /\ r = (Client.Pipeline Background argsList (client c)).2)
  /\ (forall channelName v c' r,
        Connector.Publish ctx channelName v c = Some (c', r) ->
        primary_calls c'
        = primary_calls c
          ++ [(Background, [VString "publish"; VString channelName; v])]
        /\ r = (Client.Publish Background channelName v (client c)).2)
  /\ (forall chanBufferSize channels c' r,
        Connector.Subscribe ctx chanBufferSize channels c = Some (c', r) ->
        primary_calls c'
        = primary_calls c
          ++ [(Background, VString "subscribe" :: (VString <$> channels))]
        /\ r.2 = None).
Proof.
  intros Hopen. unfold primary_calls. repeat apply conj.
  - intros cmdName args c' r H.
    assert ((client c', r) = Client.Do ctx cmdName args (client c)) as Hp
      by (destruct H as [H|H]; [by apply Do_primary | by apply DoReadOnly_primary]).
    destruct (client_Do_context ctx cmdName args (client c) Hopen) as [Hc Hr].
    rewrite <- Hp in Hc, Hr. simpl in *. split; [done|].
    intros Hh e He. by apply Hr.
  - intros script keysAndArgs c' r H.
    assert ((client c', r) = Client.Run ctx script keysAndArgs (client c)) as Hp.
    { destruct H as [H|H]; unfold Connector.Run, Connector.RunReadOnly in H;
        by destruct (fan_out_primary _ _ _ _ _ H). }
    split.
    + pose proof (Run_calls ctx script keysAndArgs (client c) Hopen) as Hc.
      rewrite <- Hp in Hc. simpl in Hc. rewrite Hc, drop_app_length.
      intros call Hin.
      destruct (noscript _);
        repeat (apply elem_of_cons in Hin as [->|Hin]; [done|]);
        by apply elem_of_nil in Hin.
    + intros Hh e He.
      destruct (client_Run_context ctx script keysAndArgs (client c) e Hopen Hh He)
        as [Hc Hr].
      rewrite <- Hp in Hc, Hr. done.
  - intros argsList c' r H.
    assert ((client c', r) = Client.Pipeline ctx argsList (client c)) as Hp.
    { destruct H as [H|H];
        unfold Connector.Pipeline, Connector.PipelineReadOnly in H;
        by destruct (fan_out_primary _ _ _ _ _ H). }
    pose proof (Pipeline_calls ctx argsList (client c) Hopen) as Hc.
    rewrite <- Hp in Hc. simpl in Hc. split; [done|].
    change (Client.Pipeline Background argsList (client c))
      with (Client.Pipeline ctx argsList (client c)).
    by rewrite <- Hp.
  - intros channelName v c' r H. unfold Connector.Publish in H.
    destruct (fan_out_primary _ _ _ _ _ H) as [Hp _].
    change (Client.Publish Background channelName v (client c))
      with (Client.Publish ctx channelName v (client c)).
    rewrite <- Hp. split; [|done].
    assert (client c' = (Client.Publish ctx channelName v (client c)).1) as ->
      by (by rewrite <- Hp).
    unfold Client.Publish, Goredis.Publish, Goredis.Do.
    destruct (Process_calls
                (NewCmd Background [VString "publish"; VString channelName; v])
                (wrappedClient (client c)) Hopen) as [_ Hc].
    destruct (Process (NewCmd Background [VString "publish"; VString channelName; v])
                (wrappedClient (client c))) as [w cmd].
    done.
  - intros chanBufferSize channels c' r H. unfold Connector.Subscribe in H.
    destruct (fan_out_primary _ _ _ _ _ H) as [Hp _].
    unfold Client.Subscribe, Goredis.Subscribe in Hp. rewrite Hopen in Hp.
    by injection Hp as -> ->.
Qed.

Lemma caller_context_governs_do_and_run_witness :
  exists c' r,
    Connector.Do CanceledCtx "GET" [VString "k"] connector_ab = Some (c', r)
    /\ primary_calls c' = [(CanceledCtx, [VString "GET"; VString "k"])]
    /\ r = (VNil, Some Canceled).
Proof.
  destruct (Connector.Do CanceledCtx "GET" [VString "k"] connector_ab)
    as [[c' r]|] eqn:HD; [|vm_compute in HD; discriminate].
  exists c', r. split; [done|].
  destruct (caller_context_governs_do_and_run CanceledCtx connector_ab eq_refl)
    as (HDo & _).
  destruct (HDo "GET" [VString "k"] c' r (or_introl HD)) as [Hc Hr].
  split; [by rewrite Hc|].
  apply Hr; [|done].
  intros hist ctx args e He. simpl. by rewrite He.
Defined.

(** C7, as stated, fails: a pipeline called with a cancelled context on a
    backend that honours contexts runs, and returns no cancellation error. *)
Lemma pipeline_ignores_caller_context :
  ~ (forall c' r,
       Connector.Pipeline CanceledCtx [[VString "SET"; VString "k"; VString "v"]]
         connector_ab = Some (c', r) ->
       r.2 = Some Canceled).
Proof.
  intros H.
  destruct (Connector.Pipeline CanceledCtx [[VString "SET"; VString "k"; VString "v"]]
              connector_ab) as [[c' r]|] eqn:HP.
  - specialize (H c' r eq_refl).
    vm_compute in HP. injection HP as <- <-. discriminate.
  - vm_compute in HP. discriminate.
Qed.

End CallerContext.

Section Monitor.
Import Go Config Latencies Scheduler Connector Examples.

(** With an empty queue a tick spawns nothing and leaves everything as it
    is. *)
Lemma tick_on_empty_queue (st : system heap) :
  pc st = Selecting -> fnChan (sched st) = [] -> step Tick st = Some st.
Proof. intros Hpc Hq. unfold step. by rewrite Hpc, Hq. Qed.

(** A tick on a non-empty queue enters the spawning loop with the demand
    computed from the backlog and the ring's average, 1 when the ring has no
    positive average. *)
Lemma tick_computes_need (st : system heap) :
  pc st = Selecting -> fnChan (sched st) <> [] ->
  exists st',
    step Tick st = Some st'
    /\ pc st' = Spawning 0 (need (Z.of_nat (length (fnChan (sched st))))
                              (Average (s_latencies (sched st))))
    /\ sched st' = sched st /\ created st' = created st.
Proof.
  intros Hpc Hq. unfold step. rewrite Hpc.
  destruct (fnChan (sched st)) as [|fn q] eqn:Hf; [done|].
  eexists. split; [reflexivity|]. done.
Qed.

(** One evaluation of the loop condition creates at most one worker, and
    none once the loop variable has reached the demand or the counter has
    reached [maxWorker]. *)
Lemma loop_creates_within_need (st st' : system heap) (i n : Z) :
  pc st = Spawning i n -> step Loop st = Some st' ->
  (i < n /\ numWorker (sched st) < s_maxWorker (sched st)
   /\ pc st' = Spawning (i + 1) n /\ created st' = S (created st))
  \/ ((n <= i \/ s_maxWorker (sched st) <= numWorker (sched st))
      /\ pc st' = Selecting /\ created st' = created st).
Proof.
  intros Hpc. unfold step. rewrite Hpc.
  destruct (Z.ltb_spec i n) as [Hi|Hi];
    destruct (Z.ltb_spec (numWorker (sched st)) (s_maxWorker (sched st)))
      as [Hw|Hw]; cbn [andb]; intros [= <-]; cbn [pc created];
    solve [left; done | right; split; [lia | done]].
Qed.

(** When every worker created so far has already raised the counter, one
    more turn of the loop keeps the workers within [maxWorker]: the bound is
    lost only to workers that were created and have not yet run. *)
Lemma loop_within_maxWorker_once_started (st st' : system heap) :
  created st = 0%nat ->
  numWorker (sched st) <= s_maxWorker (sched st) ->
  step Loop st = Some st' ->
  numWorker (sched st') + Z.of_nat (created st') <= s_maxWorker (sched st').
Proof.
  intros Hc Hn. unfold step.
  destruct (pc st) as [|i n|]; [done| |done].
  destruct (Z.ltb_spec i n) as [Hi|Hi];
    destruct (Z.ltb_spec (numWorker (sched st)) (s_maxWorker (sched st)))
      as [Hw|Hw]; cbn [andb]; intros [= <-];
    cbn [sched created set_counters numWorker s_maxWorker]; rewrite ?Hc; lia.
Qed.

(** C6 at a schedule the code allows: with [maxWorker = 1], a ring whose
    only sample is one second and two queued tasks, the monitor computes a
    demand of 2 and creates two workers, because the worker count it reads is
    raised by each worker only once that worker runs; both then run and the
    count stands at 2, above [maxWorker]. *)
Theorem monitor_overshoots_maxWorker :
  exists before after,
    run (take 10 overshoot) one_worker_scheduler = Some before
    /\ pc before = Spawning 0 2
    /\ numWorker (sched before) = 0
    /\ run overshoot one_worker_scheduler = Some after
    /\ s_maxWorker (sched after) = 1
    /\ numWorker (sched after) = 2
    /\ live_workers after = 2.
Proof.
  destruct (run (take 10 overshoot) one_worker_scheduler) as [before|] eqn:Hb;
    [|vm_compute in Hb; discriminate].
  destruct (run overshoot one_worker_scheduler) as [after|] eqn:Ha;
    [|vm_compute in Ha; discriminate].
  exists before, after.
  vm_compute in Hb. injection Hb as <-.
  vm_compute in Ha. injection Ha as <-.
  repeat split.
Qed.

End Monitor.

Section Reload.
Import Go Redisapi Config Limiter Goredis Client Scheduler Connector Spec Examples.

Lemma set_Addrs_id (c : ClientConfig) : set_Addrs (Addrs c) c = c.
Proof. by destruct c. Qed.

Lemma set_config_id (cl : clientImpl) : set_config (config cl) cl = cl.
Proof. by destruct cl. Qed.

Lemma reordered_refl (cl : clientImpl) : reordered cl cl.
Proof. exists (Addrs (config cl)). by rewrite set_Addrs_id, set_config_id. Qed.

Lemma kept_open_refl (h : heap) : kept_open h h.
Proof. intros p cl Hp. by exists cl. Qed.

Lemma kept_open_trans (h1 h2 h3 : heap) :
  kept_open h1 h2 -> kept_open h2 h3 -> kept_open h1 h3.
Proof.
  intros H12 H23 p cl Hp.
  destruct (H12 _ _ Hp) as (cl2 & Hp2 & Hc2).
  destruct (H23 _ _ Hp2) as (cl3 & Hp3 & Hc3).
  exists cl3. split; [done|]. by rewrite Hc3.
Qed.

Lemma kept_open_insert (h : heap) (p : nat) (cl cl' : clientImpl) :
  h !! p = Some cl ->
  closed (wrappedClient cl') = closed (wrappedClient cl) ->
  kept_open h (<[p := cl']> h).
Proof.
  intros Hp Hc q clq Hq. destruct (decide (p = q)) as [->|Hne].
  - exists cl'. rewrite lookup_insert_eq. split; [done|]. congruence.
  - exists clq. by rewrite lookup_insert_ne.
Qed.

Lemma kept_open_fresh (h : heap) (cl : clientImpl) :
  kept_open h (<[fresh (dom h) := cl]> h).
Proof.
  intros q clq Hq. exists clq. split; [|done].
  rewrite lookup_insert_ne; [done|].
  intros <-. apply (is_fresh (dom h)). apply elem_of_dom. by exists clq.
Qed.

Lemma isAddrsEquals_perm (addrs1 addrs2 : list string) :
  (isAddrsEquals addrs1 addrs2).1.2 ≡ₚ addrs1.
Proof.
  unfold isAddrsEquals.
  destruct (negb (bool_decide (length addrs1 = length addrs2))); simpl; [done|].
  apply merge_sort_Permutation.
Qed.

(** A failed validation leaves the client's configuration as it was, up to
    the order of its addresses. *)
Lemma validateReload_config (c config : ClientConfig) :
  exists addrs, addrs ≡ₚ Addrs c
                /\ (validateReload c config).1.2 = set_Addrs addrs c.
Proof.
  unfold validateReload.
  destruct (validate config); simpl.
  { exists (Addrs c). by rewrite set_Addrs_id. }
  destruct (negb (String.eqb (ClientMode c) (ClientMode config))); simpl.
  { exists (Addrs c). by rewrite set_Addrs_id. }
  destruct (negb (DB c =? DB config)); simpl.
  { exists (Addrs c). by rewrite set_Addrs_id. }
  pose proof (isAddrsEquals_perm (Addrs c) (Addrs config)) as Hperm.
  destruct (isAddrsEquals (Addrs c) (Addrs config)) as [[eq a1] a2].
  simpl in Hperm. exists a1. split; [done|]. by destruct (negb eq).
Qed.

Lemma wrapper_reload_error (t : wrapper) (config : ClientConfig)
  (cbOptions : list CircuitBreaker.Option) (c : ClientConfig) (w : clientWrapper)
  (e : error) (st' : ClientConfig * clientWrapper) (config' : ClientConfig) :
  wrapper_reload t config cbOptions (c, w) = (Some e, st', config') ->
  exists addrs, addrs ≡ₚ Addrs c /\ st' = (set_Addrs addrs c, w).
Proof.
  unfold wrapper_reload. cbn [fst snd].
  destruct (validateReload_config c (init config)) as (addrs & Hperm & Hc).
  destruct (validateReload c (init config)) as [[[e'|] c1] config1]; simpl in Hc.
  - intros [= <- <- <-]. exists addrs. by rewrite Hc.
  - intros [=].
Qed.

Lemma reload_error_reordered (config : ClientConfig) (cl cl' : clientImpl)
  (e : error) (config' : ClientConfig) :
  Client.reload config cl = (Some e, cl', config') -> reordered cl cl'.
Proof.
  unfold Client.reload.
  destruct (wrapper_reload (wrapperType cl) config (Client.cbOptions cl)
              (Client.config cl, wrappedClient cl)) as [[err [cfg w]] cfg'] eqn:Hw.
  intros [= -> <- <-].
  destruct (wrapper_reload_error _ _ _ _ _ _ _ _ Hw) as (addrs & Hperm & [= -> ->]).
  exists addrs. split; [done|]. by destruct cl.
Qed.


Lemma sync_closed {A} `{EqDecision A} (get : ClientConfig -> A)
  (set : A -> ClientConfig -> ClientConfig) (setter : A -> pool_call)
  (config : ClientConfig) (st : ClientConfig * clientWrapper) :
  closed (sync get set setter config st).2 = closed st.2.
Proof. unfold sync. by destruct (decide (get st.1 = get config)). Qed.

Lemma reload_pool_closed (config : ClientConfig)
  (st : ClientConfig * clientWrapper) :
  closed (reload_pool config st).2 = closed st.2.
Proof. unfold reload_pool. by rewrite !sync_closed. Qed.

Lemma reload_hystrix_closed (config : ClientConfig)
  (cbOptions : list CircuitBreaker.Option) (st : ClientConfig * clientWrapper) :
  closed (reload_hystrix config cbOptions st).2 = closed st.2.
Proof.
  unfold reload_hystrix. destruct st as [c w].
  destruct (HystrixEnabled config); [|done].
  by destruct (negb (Equals (hystrix c) (hystrix config)) || negb (HystrixEnabled c)).
Qed.

Lemma reload_ReadMode_closed (config : ClientConfig)
  (st : ClientConfig * clientWrapper) :
  closed (reload_ReadMode config st).2 = closed st.2.
Proof.
  unfold reload_ReadMode. destruct st as [c w].
  destruct (String.eqb (ReadMode c) (ReadMode config)); [done|].
  repeat (match goal with |- context [if ?b then _ else _] => destruct b end);
    done.
Qed.

Lemma on_config_closed (f : ClientConfig -> ClientConfig)
  (st : ClientConfig * clientWrapper) :
  closed (on_config f st).2 = closed st.2.
Proof. reflexivity. Qed.

Lemma apply_reload_closed (t : wrapper) (config : ClientConfig)
  (cbOptions : list CircuitBreaker.Option) (st : ClientConfig * clientWrapper) :
  closed (apply_reload t config cbOptions st).2 = closed st.2.
Proof.
  destruct t; unfold apply_reload.
  - rewrite on_config_closed, reload_hystrix_closed.
    apply reload_pool_closed.
  - rewrite reload_ReadMode_closed, on_config_closed, sync_closed,
      reload_hystrix_closed.
    apply reload_pool_closed.
Qed.

Lemma wrapper_reload_closed (t : wrapper) (config : ClientConfig)
  (cbOptions : list CircuitBreaker.Option) (st : ClientConfig * clientWrapper) :
  closed (wrapper_reload t config cbOptions st).1.2.2 = closed st.2.
Proof.
  unfold wrapper_reload.
  destruct (validateReload st.1 (init config)) as [[[e|] c1] config1].
  - reflexivity.
  - exact (apply_reload_closed t config1 cbOptions (c1, st.2)).
Qed.

(** No reload of a client closes its pool or reopens it. *)
Lemma reload_closed (config : ClientConfig) (cl : clientImpl) :
  closed (wrappedClient (Client.reload config cl).1.2) = closed (wrappedClient cl).
Proof.
  unfold Client.reload.
  pose proof (wrapper_reload_closed (wrapperType cl) config (Client.cbOptions cl)
                (Client.config cl, wrappedClient cl)) as H.
  destruct (wrapper_reload (wrapperType cl) config (Client.cbOptions cl)
              (Client.config cl, wrappedClient cl)) as [[err [cfg w]] cfg'].
  done.
Qed.

Lemma group_by_name_kept_open (ps : list nat) (m m' : gmap string (list nat))
  (h h' : heap) :
  group_by_name ps m h = Some (m', h') -> kept_open h h'.
Proof.
  revert m h. induction ps as [|p ps IH]; intros m h; cbn [group_by_name].
  - intros [= <- <-]. apply kept_open_refl.
  - destruct (h !! p) as [cl|] eqn:Hp; [|done]. cbn [mbind option_bind].
    destruct (name (config cl)) as [nm cfg]. intros H.
    eapply kept_open_trans; [|by eapply IH].
    by eapply kept_open_insert.
Qed.

Lemma reload_loadTests_kept_open (net : Network) (ctx : Context)
  (cbOptions : list CircuitBreaker.Option) (configs : list ClientConfig)
  (st st' : reloading) (r : option error) :
  reload_loadTests net ctx cbOptions configs st = Some (r, st') ->
  kept_open (r_clients st) (r_clients st')
  /\ closed (wrappedClient (r_main st')) = closed (wrappedClient (r_main st)).
Proof.
  revert st. induction configs as [|config rest IH]; intros st;
    cbn [reload_loadTests].
  - intros [= <- <-]. split; [apply kept_open_refl | done].
  - destruct (name config) as [nm config1].
    destruct (last (default [] (loadTestMap st !! nm))) as [p|].
    + destruct (isAddrsEquals (Addrs (Client.config (r_main st))) (Addrs config1))
        as [[eq a1] a2].
      destruct eq.
      * intros [= <- <-]. split; [apply kept_open_refl | done].
      * destruct (r_clients st !! p) as [cl|] eqn:Hp; [|done].
        cbn [mbind option_bind].
        pose proof (reload_closed (set_Addrs a2 config1) cl) as Hc.
        destruct (Client.reload (set_Addrs a2 config1) cl) as [[err cl'] cfg'].
        cbn [fst snd] in Hc. destruct err as [e|].
        -- intros [= <- <-]. split; [|done]. cbn [r_clients].
           by eapply kept_open_insert.
        -- intros H. destruct (IH _ H) as [Hk Hm]. split; [|done].
           eapply kept_open_trans; [|exact Hk]. cbn [r_clients].
           by eapply kept_open_insert.
    + destruct (newClient net ctx config1 cbOptions) as [err|cl].
      * intros [= <- <-]. split; [apply kept_open_refl | done].
      * intros H. destruct (IH _ H) as [Hk Hm]. split; [|done].
        eapply kept_open_trans; [|exact Hk]. cbn [r_clients].
        apply kept_open_fresh.
Qed.

(** What a failed [reload] leaves behind. *)
Lemma reload_error_retains (net : Network) (ctx : Context)
  (config : ConnectorConfig) (c c' : connectorImpl) (e : error) :
  reload net ctx config c = Some (Some e, c') ->
  loadTestClients c' = loadTestClients c
  /\ schedulerOptions c' = schedulerOptions c
  /\ loadTestScheduler c' = loadTestScheduler c
  /\ kept_open (clients c) (clients c')
  /\ closed (wrappedClient (client c')) = closed (wrappedClient (client c))
  /\ (scheduler_changed c config = true
      \/ (Client.reload (Main config) (client c)).1.1 <> None ->
      clients c' = clients c /\ reordered (client c) (client c')).
Proof.
  unfold reload. destruct (negb (HotReload config)); [done|].
  change (scheduler_changed
            (set_processAllLoadTestPackets (ProcessAllLoadTestPackets config) c)
            config) with (scheduler_changed c config).
  destruct (scheduler_changed c config) eqn:Hsched.
  { intros [= <- <-].
    split; [done|]. split; [done|]. split; [done|].
    split; [apply kept_open_refl|]. split; [done|].
    intros _. split; [done|]. apply reordered_refl. }
  pose proof (reload_closed (Main config) (client c)) as Hclosed.
  pose proof (reload_error_reordered (Main config) (client c)) as Hre.
  cbn [client set_processAllLoadTestPackets].
  destruct (Client.reload (Main config) (client c)) as [[err main] cfg'].
  cbn [fst snd] in Hclosed. destruct err as [e'|].
  { intros [= <- <-].
    split; [done|]. split; [done|]. split; [done|].
    split; [apply kept_open_refl|]. split; [done|].
    intros _. split; [done|]. by eapply Hre. }
  cbn [loadTestClients clients set_client set_processAllLoadTestPackets
       Connector.cbOptions].
  destruct (group_by_name (loadTestClients c) ∅ (clients c)) as [[m h]|] eqn:Hg;
    [|done].
  cbn [mbind option_bind].
  destruct (reload_loadTests net ctx (Connector.cbOptions c) (LoadTests config)
              {| r_main := main; r_clients := h; loadTestMap := m;
                 newLoadTestClients := [] |}) as [[err st]|] eqn:Hl; [|done].
  cbn [mbind option_bind].
  destruct (reload_loadTests_kept_open _ _ _ _ _ _ _ Hl) as [Hk Hm].
  cbn [r_main r_clients] in Hk, Hm.
  destruct err as [e'|].
  - intros [= <- <-].
    cbn [loadTestClients schedulerOptions loadTestScheduler clients client
         set_client set_processAllLoadTestPackets].
    split; [done|]. split; [done|]. split; [done|].
    split; [eapply kept_open_trans;
              [by eapply group_by_name_kept_open | exact Hk]|].
    split; [congruence|].
    intros [?|?]; done.
  - destruct (shutdown_all _ _ _); done.
Qed.

(** C2, as the code has it.  When the reload callback returns an error, the
    connector has its previous shadow list, no backend has been shut down,
    and the scheduler is as it was.  When the error comes from the validation
    of the new configuration, from a changed scheduler parameter or from the
    reload of the primary, every shadow is untouched and the primary is as
    before up to the order of its stored addresses.  (An error met later, at
    a shadow, may find the primary and the shadows matched before it already
    carrying the new parameters.) *)
Theorem reload_error_keeps_shadow_list (net : Network) (ctx : Context)
  (snapshot : ConnectorConfig) (c c' : connectorImpl) (e : error) :
  onChange net ctx snapshot c = Some (Some e, c') ->
  loadTestClients c' = loadTestClients c
  /\ schedulerOptions c' = schedulerOptions c
  /\ loadTestScheduler c' = loadTestScheduler c
  /\ kept_open (clients c) (clients c')
  /\ closed (wrappedClient (client c')) = closed (wrappedClient (client c))
  /\ ((initAndValidate snapshot).1 <> None
      \/ scheduler_changed c (initAndValidate snapshot).2 = true
      \/ (Client.reload (Main (initAndValidate snapshot).2) (client c)).1.1 <> None ->
      clients c' = clients c /\ reordered (client c) (client c')).
Proof.
  unfold onChange.
  destruct (initAndValidate snapshot) as [[err|] config]; cbn [fst snd].
  - intros [= <- <-].
    split; [done|]. split; [done|]. split; [done|].
    split; [apply kept_open_refl|]. split; [done|].
    intros _. split; [done|]. apply reordered_refl.
  - intros H.
    destruct (reload_error_retains _ _ _ _ _ _ H) as (H1 & H2 & H3 & H4 & H5 & H6).
    split; [done|]. split; [done|]. split; [done|].
    split; [done|]. split; [done|].
    intros [?|[?|?]]; [done| |]; apply H6; [by left | by right].
Qed.

End Reload.

Section ReloadExamples.
Import Go Redisapi Config Limiter Goredis Client Scheduler Connector Spec Examples.

Lemma connector_a_built :
  NewDynamicConnector net Background (snapshot (singleHost "a:6379" 0 10) [] false)
  = inr (connector_for [] false).
Proof. vm_compute. reflexivity. Qed.

Lemma connector_aa_built :
  NewDynamicConnector net Background
    (snapshot (singleHost "a:6379" 0 10) [singleHost "a:6379" 0 10] false)
  = inr (connector_for [singleHost "a:6379" 0 10] false).
Proof. vm_compute. reflexivity. Qed.

(** C3 at a configuration the callback accepts: the connector has a primary
    at a:6379 and no shadow; the new configuration adds a shadow at a:6379.
    No current shadow has that name, the shadow is newly built, and the
    reload returns no error and installs it. *)
Theorem reload_admits_new_shadow_at_primary_address :
  exists c' shadow,
    onChange net Background
      (snapshot (singleHost "a:6379" 0 10) [singleHost "a:6379" 0 10] false)
      (connector_for [] false) = Some (None, c')
    /\ loadTestClients c' = [0%nat]
    /\ clients c' !! 0%nat = Some shadow
    /\ Addrs (config shadow) = ["a:6379"]
    /\ Addrs (config (client c')) = ["a:6379"]
    /\ (isAddrsEquals (Addrs (config (client c'))) (Addrs (config shadow))).1.1
       = true.
Proof.
  destruct (onChange net Background
              (snapshot (singleHost "a:6379" 0 10) [singleHost "a:6379" 0 10] false)
              (connector_for [] false)) as [[err c']|] eqn:HR;
    [|vm_compute in HR; discriminate].
  vm_compute in HR. injection HR as <- <-.
  eexists _, _. split; [reflexivity|].
  split; [reflexivity|]. split; [vm_compute; reflexivity|].
  repeat split.
Qed.

(** The same configuration is rejected when a shadow of that name is
    already there: the check sits on the path of matched shadows only. *)
Lemma reload_rejects_matched_shadow_at_primary_address :
  exists c',
    onChange net Background
      (snapshot (singleHost "a:6379" 0 10) [singleHost "a:6379" 0 10] false)
      (connector_for [singleHost "a:6379" 0 10] false)
    = Some (Some (errorString "can't share the same address with the main client"),
            c').
Proof.
  destruct (onChange net Background
              (snapshot (singleHost "a:6379" 0 10) [singleHost "a:6379" 0 10] false)
              (connector_for [singleHost "a:6379" 0 10] false))
    as [[err c']|] eqn:HR; [|vm_compute in HR; discriminate].
  exists c'. vm_compute in HR. injection HR as <- <-. reflexivity.
Qed.

(** C2, as stated, fails: the new configuration changes the primary's pool
    size and the database of the shadow at b:6379; the reload applies the
    pool size to the primary, then fails at the shadow and returns the
    error. *)
Lemma failed_reload_has_changed_primary :
  ~ (forall e c',
       onChange net Background
         (snapshot (singleHost "a:6379" 0 20) [singleHost "b:6379" 1 10] true)
         connector_ab = Some (Some e, c') ->
       PoolSize (config (client c')) = PoolSize (config (client connector_ab))
       /\ pool (wrappedClient (client c')) = pool (wrappedClient (client connector_ab))).
Proof.
  intros H.
  destruct (onChange net Background
              (snapshot (singleHost "a:6379" 0 20) [singleHost "b:6379" 1 10] true)
              connector_ab) as [[[e|] c']|] eqn:HR.
  - destruct (H e c' eq_refl) as [Hsize _].
    vm_compute in HR. injection HR as <- <-. vm_compute in Hsize. discriminate.
  - vm_compute in HR. discriminate.
  - vm_compute in HR. discriminate.
Qed.

(** The flag for strict shadow mode is assigned before the scheduler
    parameters are compared: a reload rejected for a changed worker number
    has already set it. *)
Lemma rejected_reload_has_set_strict_flag :
  exists e c',
    onChange net Background
      {| Main := singleHost "a:6379" 0 10; LoadTests := [singleHost "b:6379" 0 10];
         HotReload := true; ProcessAllLoadTestPackets := false;
         SchedulerWorkerNumber := 5; SchedulerChannelSize := 0;
         SchedulerWorkerIdleTimeoutInMs := 0 |}
      connector_ab = Some (Some e, c')
    /\ processAllLoadTestPackets connector_ab = true
    /\ processAllLoadTestPackets c' = false.
Proof.
  destruct (onChange net Background
              {| Main := singleHost "a:6379" 0 10;
                 LoadTests := [singleHost "b:6379" 0 10];
                 HotReload := true; ProcessAllLoadTestPackets := false;
                 SchedulerWorkerNumber := 5; SchedulerChannelSize := 0;
                 SchedulerWorkerIdleTimeoutInMs := 0 |}
              connector_ab) as [[[e|] c']|] eqn:HR;
    [|vm_compute in HR; discriminate..].
  exists e, c'. vm_compute in HR. injection HR as <- <-. repeat split.
Qed.

Lemma reload_error_keeps_shadow_list_witness :
  exists e c',
    onChange net Background
      (snapshot (singleHost "a:6379" 0 20) [singleHost "b:6379" 1 10] true)
      connector_ab = Some (Some e, c')
    /\ loadTestClients c' = [0%nat]
    /\ (exists e2 c2,
          onChange net Background
            (snapshot (singleHost "c:6379" 0 20) [singleHost "b:6379" 1 10] true)
            connector_ab = Some (Some e2, c2)
          /\ clients c2 = clients connector_ab
          /\ reordered (client connector_ab) (client c2)).
Proof.
  destruct (onChange net Background
              (snapshot (singleHost "a:6379" 0 20) [singleHost "b:6379" 1 10] true)
              connector_ab) as [[[e|] c']|] eqn:HR;
    [|vm_compute in HR; discriminate..].
  exists e, c'. split; [done|].
  split; [exact (proj1 (reload_error_keeps_shadow_list _ _ _ _ _ _ HR))|].
  destruct (onChange net Background
              (snapshot (singleHost "c:6379" 0 20) [singleHost "b:6379" 1 10] true)
              connector_ab) as [[[e2|] c2]|] eqn:HR2;
    [|vm_compute in HR2; discriminate..].
  exists e2, c2. split; [done|].
  apply (reload_error_keeps_shadow_list _ _ _ _ _ _ HR2).
  right. right. vm_compute. discriminate.
Defined.

End ReloadExamples.
